(** * CtrlF: the document preview cache of [src/app/page.tsx]

    A shallow embedding of the [Home] component: its React state, the
    [generatePreview] pipeline over pdf.js, the message effect, the
    thumbnail view, [handlePreviewClick] and [handleSubmit].

    Conventions.
    - A JavaScript string is a [string]; each character stands for one
      code unit below 256.
    - A page number is an integer-valued JavaScript number, a [Z]; the
      template literal [`${doc.page}`] prints it in decimal ([pretty]).
    - A [Map<string,string>] is a [gmap string string], a [Set<string>] a
      [gset string]; [m.get(k)] is [m !! k], [undefined] is [None].
    - A [setState] updater is applied to the current state in the order it
      was queued; the blocks of code between two [await]s are the atomic
      steps of the model.
    - [new Map(prev.set(k, v))] also writes [k] into the map object of the
      previous state, which older closures still hold. What the [previews]
      of a closure contains when it is read is therefore an argument
      ([snapshot]) of the steps that read it, and the properties hold for
      every snapshot. *)

From Stdlib Require Import ZArith QArith String Ascii List Lia.
From stdpp Require Import base option strings pretty gmap list.

Local Open Scope Z_scope.
Local Open Scope string_scope.

(** ** JavaScript values used by the component *)

Module Js.

(** [if (s)] on a string: the empty string is falsy. *)
Definition truthy (s : string) : bool :=
  match s with
  | EmptyString => false
  | String _ _ => true
  end.

(** [if (m.get(k))]: [undefined] is falsy. *)
Definition truthy_opt (o : option string) : bool :=
  match o with
  | Some s => truthy s
  | None => false
  end.

(** [s.split(sep)] for a one-character separator. The array is never
    empty: a string without the separator gives [[s]]. *)
Fixpoint split (sep : ascii) (s : string) : list string :=
  match s with
  | EmptyString => [EmptyString]
  | String c rest =>
      if Ascii.eqb c sep then EmptyString :: split sep rest
      else match split sep rest with
           | [] => [String c EmptyString]
           | piece :: pieces => String c piece :: pieces
           end
  end.

(** [arr[0]] read as a string; the arrays it is applied to are never
    empty. *)
Definition first (pieces : list string) : string := hd EmptyString pieces.

Fixpoint contains (c : ascii) (s : string) : bool :=
  match s with
  | EmptyString => false
  | String d rest => Ascii.eqb d c || contains c rest
  end.

Fixpoint starts_with (p s : string) : bool :=
  match p, s with
  | EmptyString, _ => true
  | String a p', String b s' => Ascii.eqb a b && starts_with p' s'
  | String _ _, EmptyString => false
  end.

(** [s.includes(p)]. *)
Fixpoint includes (s p : string) : bool :=
  starts_with p s
  || match s with
     | EmptyString => false
     | String _ rest => includes rest p
     end.

(** White space and line terminators among the code units below 256:
    TAB, LF, VT, FF, CR, SPACE and NBSP. *)
Definition is_white_space (c : ascii) : bool :=
  let n := nat_of_ascii c in
  ((9 <=? n) && (n <=? 13) || (n =? 32) || (n =? 160))%nat.

Fixpoint trimStart (s : string) : string :=
  match s with
  | EmptyString => EmptyString
  | String c rest => if is_white_space c then trimStart rest else s
  end.

(** Drops the white space at the end: a character is kept when it is not
    white space or when something is kept after it. *)
Fixpoint trimEnd (s : string) : string :=
  match s with
  | EmptyString => EmptyString
  | String c rest =>
      match trimEnd rest with
      | EmptyString => if is_white_space c then EmptyString
                       else String c EmptyString
      | kept => String c kept
      end
  end.

(** [s.trim()]. *)
Definition trim (s : string) : string := trimEnd (trimStart s).

Fixpoint all_white_space (s : string) : bool :=
  match s with
  | EmptyString => true
  | String c rest => is_white_space c && all_white_space rest
  end.

(** What a [throw] or a rejected promise carries: an [Error] object with
    its [message], or any other value. *)
Inductive Thrown :=
| ErrorObject (message : string)
| OtherValue.

(** The outcome of a block of code, or of an awaited promise. *)
Inductive Completion (A : Type) :=
| Normal (a : A)
| Throw (e : Thrown).
Arguments Normal {A} a.
Arguments Throw {A} e.

End Js.

Import Js.

(** ** Data model (lines 9-34) *)

Record DocumentPreview := mkDocumentPreview {
  url : string;
  page : Z;
  title : string;
  previewUrl : option string;
  largePreviewUrl : option string;
  doc_isLoading : option bool;
  error : option string }.

Inductive Role := user | assistant.

Record Message := mkMessage {
  role : Role;
  content : string;
  documents : option (list DocumentPreview) }.

(** One entry of [ChatResponse.documents]. *)
Record ResponseDocument := mkResponseDocument {
  r_title : string;
  r_url : string;
  r_page : Z }.

Record ChatResponse := mkChatResponse {
  text : string;
  images : list string;
  experts : list string;
  (** [None] when the field of the parsed JSON is not an array *)
  r_documents : option (list ResponseDocument) }.

(** ** Preview key derivation (lines 61, 186-190, 227-228, 296) *)

(** [doc.url.split('#')[0].split('?')[0]]. *)
Definition cleanUrl (u : string) : string :=
  first (split "?" (first (split "#" u))).

(** [`${url}_${page}`]. *)
Definition previewKey (u : string) (p : Z) : string :=
  u +:+ "_" +:+ pretty p.

(** The key under which a citation of the backend is cached: the message
    stores the cleaned locator (line 189) and [generatePreview] and the
    view build the key from it (lines 61 and 296). *)
Definition deriveKey (c : ResponseDocument) : string :=
  previewKey (cleanUrl (r_url c)) (r_page c).

(** A locator free of decorations. *)
Definition undecorated (u : string) : Prop :=
  contains "#" u = false /\ contains "?" u = false.

(** A fragment and/or query decoration: nothing, or a suffix that starts
    with [#] or [?]. *)
Definition decoration (d : string) : Prop :=
  d = "" \/ starts_with "#" d = true \/ starts_with "?" d = true.

(** ** The pdf.js engine and the canvas (external capabilities) *)

(** Handles of pdf.js are opaque references. *)
Definition PDFDocumentProxy := N.
Definition PDFPageProxy := N.

(** [page.getViewport({ scale })]. *)
Record Viewport := mkViewport {
  scale : Q;
  width : Q;
  height : Q }.

(** A canvas element: its size and, once a page has been painted on it, the
    base64 text of its PNG encoding. *)
Record Canvas := mkCanvas {
  canvas_width : Q;
  canvas_height : Q;
  png : option string }.

(** What the browser and pdf.js answer during one [generatePreview] call. *)
Record Browser := mkBrowser {
  (** [pdfjs.getDocument({url, ...}).promise] *)
  getDocument : string -> Completion PDFDocumentProxy;
  (** [pdf.numPages] *)
  numPages : PDFDocumentProxy -> Z;
  (** [pdf.getPage(n)] *)
  getPage : PDFDocumentProxy -> Z -> Completion PDFPageProxy;
  (** the width and height of [page.getViewport({ scale })] *)
  viewportSize : PDFPageProxy -> Q -> Q * Q;
  (** whether [canvas.getContext('2d')] gives a drawing surface, for the
      first and for the second canvas created by the call *)
  getContext : nat -> Canvas -> bool;
  (** [page.render({canvasContext, viewport}).promise]: on success, the
      base64 text of the PNG encoding of the painted canvas *)
  render : PDFPageProxy -> Viewport -> Completion string }.

(** pdf.js rejects [getPage] beyond the page count of the document. *)
Definition rejects_pages_out_of_range (B : Browser) : Prop :=
  forall pdf n, numPages B pdf < n -> exists e, getPage B pdf n = Throw e.

(** [canvas.toDataURL()]: always a [data:] URL. *)
Definition toDataURL (c : Canvas) : string :=
  match png c with
  | Some base64 => "data:image/png;base64," +:+ base64
  | None => "data:,"
  end.

(** Where the component runs: on the server, where [typeof window] is
    ['undefined']; in a browser that loads pdf.js; or in a browser in which
    [import('pdfjs-dist')] is rejected. *)
Inductive Env :=
| Server
| Client (B : Browser)
| ClientWithoutPdfjs (e : Thrown).

(** Lines 38-45. *)
Definition configurePdfjs (env : Env) : Completion (option Browser) :=
  match env with
  | Client pdfjs => Normal (Some pdfjs)
  | ClientWithoutPdfjs e => Throw e
  | Server => Normal None
  end.

(** ** The render pipeline of [generatePreview] (lines 72-106) *)

(** The calls made to pdf.js, in order. *)
Inductive EngineCall :=
| CallGetDocument (u : string)
| CallGetPage (n : Z)
| CallRender (s : Q).

(** A computation that logs its engine calls and may throw. *)
Definition Traced (A : Type) : Type := list EngineCall * Completion A.

Definition traced_ret {A} (a : A) : Traced A := ([], Normal a).

Definition traced_bind {A B} (c : Traced A) (k : A -> Traced B) : Traced B :=
  match c with
  | (calls, Normal a) => let '(calls', r) := k a in ((calls ++ calls')%list, r)
  | (calls, Throw e) => (calls, Throw e)
  end.

Definition awaiting {A} (call : EngineCall) (c : Completion A) : Traced A :=
  ([call], c).

Definition throwing {A} (e : Thrown) : Traced A := ([], Throw e).

Definition getViewport (B : Browser) (pg : PDFPageProxy) (s : Q) : Viewport :=
  let '(w, h) := viewportSize B pg s in mkViewport s w h.

(** [document.createElement('canvas')] followed by the two assignments of
    its size. *)
Definition createCanvas (v : Viewport) : Canvas :=
  mkCanvas (width v) (height v) None.

Definition paint (base64 : string) (c : Canvas) : Canvas :=
  mkCanvas (canvas_width c) (canvas_height c) (Some base64).

Definition renderPages (B : Browser) (doc : DocumentPreview)
  : Traced (Canvas * Canvas) :=
  traced_bind (awaiting (CallGetDocument (url doc)) (getDocument B (url doc)))
  (fun pdf =>
  traced_bind (awaiting (CallGetPage (page doc)) (getPage B pdf (page doc)))
  (fun pg =>
  (* Small preview *)
  let smallViewport := getViewport B pg (1 # 2) in
  let smallCanvas := createCanvas smallViewport in
  if negb (getContext B 0%nat smallCanvas)
  then throwing (ErrorObject "Failed to get small canvas context")
  else
  traced_bind (awaiting (CallRender (scale smallViewport))
                 (render B pg smallViewport))
  (fun smallImage =>
  let smallCanvas := paint smallImage smallCanvas in
  (* Large preview *)
  let largeViewport := getViewport B pg (3 # 2) in
  let largeCanvas := createCanvas largeViewport in
  if negb (getContext B 1%nat largeCanvas)
  then throwing (ErrorObject "Failed to get large canvas context")
  else
  traced_bind (awaiting (CallRender (scale largeViewport))
                 (render B pg largeViewport))
  (fun largeImage =>
  let largeCanvas := paint largeImage largeCanvas in
  traced_ret (smallCanvas, largeCanvas))))).

(** ** The state of [Home] (lines 48-55) *)

(** What the component asks of the outside world. *)
Inductive Effect :=
| RendererInvoked (u : string) (p : Z)   (* [pdfjs.getDocument], line 72 *)
| QueryPosted (message : string)         (* [fetch], line 136 *)
| WindowOpened (u : string).             (* [window.open], line 223 *)

(** The eight [useState] cells, and the log of the effects issued so far. *)
Record Home := mkHome {
  messages : list Message;
  input : string;
  isLoading : bool;
  previews : gmap string string;
  largePreviews : gmap string string;
  loadingPreviews : gset string;
  previewErrors : gmap string string;
  selectedPreview : option DocumentPreview;
  effects : list Effect }.

Definition initialHome : Home :=
  mkHome [] "" false ∅ ∅ ∅ ∅ None [].

Definition setMessages (f : list Message -> list Message) (h : Home) : Home :=
  mkHome (f (messages h)) (input h) (isLoading h) (previews h)
    (largePreviews h) (loadingPreviews h) (previewErrors h)
    (selectedPreview h) (effects h).

Definition setInput (s : string) (h : Home) : Home :=
  mkHome (messages h) s (isLoading h) (previews h)
    (largePreviews h) (loadingPreviews h) (previewErrors h)
    (selectedPreview h) (effects h).

Definition setIsLoading (b : bool) (h : Home) : Home :=
  mkHome (messages h) (input h) b (previews h)
    (largePreviews h) (loadingPreviews h) (previewErrors h)
    (selectedPreview h) (effects h).

Definition setPreviews (f : gmap string string -> gmap string string)
  (h : Home) : Home :=
  mkHome (messages h) (input h) (isLoading h) (f (previews h))
    (largePreviews h) (loadingPreviews h) (previewErrors h)
    (selectedPreview h) (effects h).

Definition setLargePreviews (f : gmap string string -> gmap string string)
  (h : Home) : Home :=
  mkHome (messages h) (input h) (isLoading h) (previews h)
    (f (largePreviews h)) (loadingPreviews h) (previewErrors h)
    (selectedPreview h) (effects h).

Definition setLoadingPreviews (f : gset string -> gset string)
  (h : Home) : Home :=
  mkHome (messages h) (input h) (isLoading h) (previews h)
    (largePreviews h) (f (loadingPreviews h)) (previewErrors h)
    (selectedPreview h) (effects h).

Definition setPreviewErrors (f : gmap string string -> gmap string string)
  (h : Home) : Home :=
  mkHome (messages h) (input h) (isLoading h) (previews h)
    (largePreviews h) (loadingPreviews h) (f (previewErrors h))
    (selectedPreview h) (effects h).

Definition setSelectedPreview (d : option DocumentPreview) (h : Home) : Home :=
  mkHome (messages h) (input h) (isLoading h) (previews h)
    (largePreviews h) (loadingPreviews h) (previewErrors h)
    d (effects h).

Definition emit (e : Effect) (h : Home) : Home :=
  mkHome (messages h) (input h) (isLoading h) (previews h)
    (largePreviews h) (loadingPreviews h) (previewErrors h)
    (selectedPreview h) (effects h ++ [e])%list.

(** A block of the component: it updates the state and completes. *)
Definition Act (A : Type) : Type := Home -> Home * Completion A.

Definition update (f : Home -> Home) : Act unit := fun h => (f h, Normal tt).

Definition andThen {A B} (a : Act A) (k : A -> Act B) : Act B :=
  fun h =>
    match a h with
    | (h', Normal x) => k x h'
    | (h', Throw e) => (h', Throw e)
    end.

(** [try { body } catch (error) { handler } finally { finalizer }]. *)
Definition tryCatchFinally {A} (body : Act A) (handler : Thrown -> Act A)
  (finalizer : Act unit) : Act A :=
  fun h =>
    let '(h1, c1) :=
      match body h with
      | (h', Normal x) => (h', Normal x)
      | (h', Throw e) => handler e h'
      end in
    match finalizer h1 with
    | (h2, Normal _) => (h2, c1)
    | (h2, Throw e) => (h2, Throw e)
    end.

(** ** [generatePreview] (lines 57-119) *)

(** The updater of lines 64-69. [snapshot] is what the [previews] map of the
    closure holds when the updater runs. *)
Definition markLoading (snapshot : gmap string string) (key : string)
  (prev : gset string) : gset string :=
  if bool_decide (key ∈ prev) || truthy_opt (snapshot !! key) then prev
  else {[key]} ∪ prev.

(** Lines 61-72, after [configurePdfjs] has answered: the key, the updater
    of the in-flight set, and the call of [pdfjs.getDocument]; the call
    then waits for the engine. *)
Definition generatePreview_start (snapshot : gmap string string)
  (doc : DocumentPreview) (h : Home) : Home :=
  let key := previewKey (url doc) (page doc) in
  emit (RendererInvoked (url doc) (page doc))
    (setLoadingPreviews (markLoading snapshot key) h).

(** [error instanceof Error ? error.message : 'Unknown error']. *)
Definition catchMessage (e : Thrown) : string :=
  match e with
  | ErrorObject message => message
  | OtherValue => "Unknown error"
  end.

(** Lines 71-118 once the engine has answered: [rendered] is the outcome of
    lines 72-106, the two canvases or what was thrown. *)
Definition generatePreview_settle (doc : DocumentPreview)
  (rendered : Completion (Canvas * Canvas)) : Act unit :=
  let key := previewKey (url doc) (page doc) in
  tryCatchFinally
    (fun h =>
       match rendered with
       | Normal (smallCanvas, largeCanvas) =>
           andThen
             (update (setPreviews (fun prev =>
                        <[key := toDataURL smallCanvas]> prev)))
             (fun _ =>
                update (setLargePreviews (fun prev =>
                          <[key := toDataURL largeCanvas]> prev))) h
       | Throw e => (h, Throw e)
       end)
    (fun e =>
       update (setPreviewErrors (fun prev => <[key := catchMessage e]> prev)))
    (update (setLoadingPreviews (fun prev => prev ∖ {[key]}))).

(** A whole call that runs without interleaving; its completion is what
    the promise of the call settles to. *)
Definition generatePreview (env : Env) (snapshot : gmap string string)
  (doc : DocumentPreview) : Act unit :=
  fun h =>
    match configurePdfjs env with
    | Normal None => (h, Normal tt)
    | Normal (Some pdfjs) =>
        generatePreview_settle doc (snd (renderPages pdfjs doc))
          (generatePreview_start snapshot doc h)
    | Throw e => (h, Throw e)
    end.

(** The call of an async function whose promise is dropped: the steps of
    the call happen, and the caller goes on whatever the promise settles
    to. *)
Definition detached (call : Act unit) : Act unit :=
  fun h => (fst (call h), Normal tt).

(** ** The message effect (lines 240-250) *)

Definition allDocuments (ms : list Message) : list DocumentPreview :=
  flat_map (fun m => default [] (documents m)) ms.

(** [items.forEach(callback)]; a callback that throws ends the loop. *)
Fixpoint forEach {A} (items : list A) (callback : A -> Act unit) : Act unit :=
  match items with
  | [] => fun h => (h, Normal tt)
  | item :: rest => andThen (callback item) (fun _ => forEach rest callback)
  end.

(** One run of the effect in which every call completes before the next
    one starts; the closure of the run holds the [previews] of its
    render. *)
Definition useEffect (env : Env) : Act unit :=
  fun h =>
    forEach (messages h)
      (fun message =>
         match documents message with
         | Some docs =>
             forEach docs
               (fun doc => detached (generatePreview env (previews h) doc))
         | None => fun h' => (h', Normal tt)
         end) h.

(** ** The thumbnail of a citation (lines 295-372) *)

Inductive Thumbnail :=
| OpenPdfButton            (* the error affordance, lines 301-316 *)
| Spinner                  (* lines 318-332 *)
| NoThumbnail              (* [return null], line 334 *)
| PreviewImage (src : string).

Definition thumbnail (h : Home) (doc : DocumentPreview) : Thumbnail :=
  let key := previewKey (url doc) (page doc) in
  let previewUrl := previews h !! key in
  let loading := bool_decide (key ∈ loadingPreviews h) in
  let err := previewErrors h !! key in
  if truthy_opt err then OpenPdfButton
  else if loading then Spinner
  else match previewUrl with
       | Some src => if truthy src then PreviewImage src else NoThumbnail
       | None => NoThumbnail
       end.

(** ** [handlePreviewClick] and [handleDocumentClick] (lines 221-238) *)

(** The value of [largePreviews.get(previewKey)] when it is truthy. *)
Definition selectForModal (h : Home) (doc : DocumentPreview) : option string :=
  let key := previewKey (cleanUrl (url doc)) (page doc) in
  match largePreviews h !! key with
  | Some largePreviewUrl =>
      if truthy largePreviewUrl then Some largePreviewUrl else None
  | None => None
  end.

Definition handlePreviewClick (doc : DocumentPreview) (h : Home) : Home :=
  match selectForModal h doc with
  | Some largePreviewUrl =>
      setSelectedPreview
        (Some (mkDocumentPreview (cleanUrl (url doc)) (page doc) (title doc)
                 (previewUrl doc) (Some largePreviewUrl)
                 (doc_isLoading doc) (error doc))) h
  | None => h
  end.

Definition handleDocumentClick (doc : DocumentPreview) (h : Home) : Home :=
  let u := if contains "?" (url doc) then first (split "?" (url doc))
           else url doc in
  emit (WindowOpened (u +:+ "#page=" +:+ pretty (page doc))) h.

(** ** [handleSubmit] (lines 121-219) *)

Definition e_acute : string := String (ascii_of_nat 233) "".
Definition e_grave : string := String (ascii_of_nat 232) "".

Definition genericFailure : string :=
  "D" +:+ e_acute +:+ "sol" +:+ e_acute
  +:+ ", une erreur est survenue lors de la communication avec le serveur.".

Definition networkFailure : string :=
  "Impossible de se connecter au serveur. Veuillez v" +:+ e_acute
  +:+ "rifier votre connexion et les param" +:+ e_grave +:+ "tres CORS.".

Definition serverFailure (message : string) : string :=
  "Le serveur a rencontr" +:+ e_acute +:+ " une erreur. " +:+ message.

Definition parsingFailure : string :=
  "Le serveur a renvoy" +:+ e_acute +:+ " une r" +:+ e_acute
  +:+ "ponse invalide. L'" +:+ e_acute +:+ "quipe technique a " +:+ e_acute
  +:+ "t" +:+ e_acute +:+ " notifi" +:+ e_acute +:+ "e.".

Definition invalidFormat : string :=
  "Format de r" +:+ e_acute
  +:+ "ponse invalide: champs manquants ou invalides".

(** Lines 198-209. *)
Definition errorMessageFor (e : Thrown) : string :=
  match e with
  | ErrorObject message =>
      if includes message "Failed to fetch" || includes message "NetworkError"
      then networkFailure
      else if includes message "Erreur serveur" then serverFailure message
      else if includes message "parsing" then parsingFailure
      else genericFailure
  | OtherValue => genericFailure
  end.

(** Lines 185-192. *)
Definition assistantDocument (snapshot : gmap string string)
  (doc : ResponseDocument) : DocumentPreview :=
  let clean := cleanUrl (r_url doc) in
  mkDocumentPreview clean (r_page doc) (r_title doc)
    (snapshot !! previewKey clean (r_page doc)) None None None.

(** Lines 125-136: the user message, the loading flag and the request. *)
Definition handleSubmit_send (h : Home) : Home :=
  let userMessage := mkMessage user (input h) None in
  emit (QueryPosted (input h))
    (setIsLoading true (setMessages (fun prev => prev ++ [userMessage])%list h)).

(** Lines 132-218 once the backend has answered: [reply] is the outcome of
    lines 133-176, the parsed data or what was thrown. *)
Definition handleSubmit_answer (snapshot : gmap string string)
  (reply : Completion ChatResponse) : Act unit :=
  tryCatchFinally
    (fun h =>
       match reply with
       | Normal data =>
           match r_documents data with
           | Some docs =>
               if truthy (text data)
               then
                 let assistantMessage :=
                   mkMessage assistant (text data)
                     (Some (map (assistantDocument snapshot) docs)) in
                 update (setMessages
                           (fun prev => prev ++ [assistantMessage])%list) h
               else (h, Throw (ErrorObject invalidFormat))
           | None => (h, Throw (ErrorObject invalidFormat))
           end
       | Throw e => (h, Throw e)
       end)
    (fun e =>
       update (setMessages (fun prev =>
                 prev ++ [mkMessage assistant (errorMessageFor e) None])%list))
    (andThen (update (setIsLoading false)) (fun _ => update (setInput ""))).

(** The whole handler, without interleaving. Line 123 returns before
    anything is written when the trimmed input is empty. *)
Definition handleSubmit (reply : Completion ChatResponse) : Act unit :=
  fun h =>
    if negb (truthy (trim (input h))) then (h, Normal tt)
    else handleSubmit_answer (previews h) reply (handleSubmit_send h).

(** ** Runs of the component *)

(** The atomic steps: the blocks of the handlers between two suspension
    points. *)
Inductive Event :=
| Typed (s : string)
| SubmitSent
| SubmitAnswered (snapshot : gmap string string)
    (reply : Completion ChatResponse)
| PreviewStarted (snapshot : gmap string string) (doc : DocumentPreview)
| PreviewSettled (doc : DocumentPreview)
    (rendered : Completion (Canvas * Canvas))
| PreviewClicked (doc : DocumentPreview)
| DocumentClicked (doc : DocumentPreview)
| ModalClosed.

Definition step (h : Home) (ev : Event) : Home :=
  match ev with
  | Typed s => setInput s h
  | SubmitSent =>
      if negb (truthy (trim (input h))) then h else handleSubmit_send h
  | SubmitAnswered snapshot reply => fst (handleSubmit_answer snapshot reply h)
  | PreviewStarted snapshot doc => generatePreview_start snapshot doc h
  | PreviewSettled doc rendered => fst (generatePreview_settle doc rendered h)
  | PreviewClicked doc => handlePreviewClick doc h
  | DocumentClicked doc => handleDocumentClick doc h
  | ModalClosed => setSelectedPreview None h
  end.

Definition run (h : Home) (evs : list Event) : Home := fold_left step evs h.

Definition reachable (h : Home) : Prop := exists evs, h = run initialHome evs.

(** The steps of one [generatePreview] call in the browser. *)
Definition previewEvents (B : Browser) (snapshot : gmap string string)
  (doc : DocumentPreview) : list Event :=
  [PreviewStarted snapshot doc; PreviewSettled doc (snd (renderPages B doc))].

Definition isRendererInvoked (u : string) (p : Z) (e : Effect) : bool :=
  match e with
  | RendererInvoked u' p' => bool_decide (u' = u) && bool_decide (p' = p)
  | _ => false
  end.

(** How often the renderer was invoked for a locator and page. *)
Definition rendererInvocations (u : string) (p : Z) (h : Home) : nat :=
  length (List.filter (isRendererInvoked u p) (effects h)).

Definition isStartFor (u : string) (p : Z) (ev : Event) : bool :=
  match ev with
  | PreviewStarted _ doc =>
      bool_decide (url doc = u) && bool_decide (page doc = p)
  | _ => false
  end.

(** How many [generatePreview] calls a run starts for a locator and page. *)
Definition startsFor (u : string) (p : Z) (evs : list Event) : nat :=
  length (List.filter (isStartFor u p) evs).

(** ** Sample data *)

(** A browser in which every document has five pages and every step
    succeeds. *)
Definition fivePages : Browser :=
  mkBrowser (fun _ => Normal 7%N) (fun _ => 5)
    (fun _ n => if ((1 <=? n)%Z && (n <=? 5)%Z) then Normal (Z.to_N n)
                else Throw (ErrorObject "Invalid page request."))
    (fun _ s => (s * 612, s * 792)%Q)
    (fun _ _ => true)
    (fun pg v => Normal ("iVBOR" +:+ pretty pg)).

(** The same browser once the network is down. *)
Definition offline : Browser :=
  mkBrowser (fun _ => Throw (ErrorObject "Failed to fetch")) (fun _ => 5)
    (getPage fivePages) (viewportSize fivePages) (getContext fivePages)
    (render fivePages).

(** A browser in which opening a document is rejected with an [Error] that
    carries no message. *)
Definition silent : Browser :=
  mkBrowser (fun _ => Throw (ErrorObject "")) (fun _ => 5)
    (getPage fivePages) (viewportSize fivePages) (getContext fivePages)
    (render fivePages).

(** A browser that has no drawing surface left for a second canvas. *)
Definition oneSurface : Browser :=
  mkBrowser (getDocument fivePages) (numPages fivePages) (getPage fivePages)
    (viewportSize fivePages) (fun i _ => bool_decide (i = 0%nat))
    (render fivePages).

Definition sampleDoc : DocumentPreview :=
  mkDocumentPreview "a.pdf" 1 "A" None None None None.

(** An answer that cites the same page twice, with different decorations. *)
Definition sampleReply : Completion ChatResponse :=
  Normal (mkChatResponse "See page 3." [] []
    (Some [mkResponseDocument "Doc" "https://x/doc.pdf?v=2" 3;
           mkResponseDocument "Doc" "https://x/doc.pdf#page=1" 3])).

(** An answer that cites one page. *)
Definition singleReply : Completion ChatResponse :=
  Normal (mkChatResponse "See page 1." [] []
    (Some [mkResponseDocument "A" "a.pdf" 1])).

(** An answer that cites a page beyond the end of the document, then a page
    that exists. *)
Definition mixedReply : Completion ChatResponse :=
  Normal (mkChatResponse "See pages 9999 and 1." [] []
    (Some [mkResponseDocument "A" "a.pdf" 9999;
           mkResponseDocument "A" "a.pdf" 1])).

(** The component after the question [q] has been answered by [reply]. *)
Definition answered (reply : Completion ChatResponse) : Home :=
  fst (handleSubmit reply (setInput "q" initialHome)).

(** The document that both citations of [sampleReply] become. *)
Definition citedTwice : DocumentPreview :=
  mkDocumentPreview "https://x/doc.pdf" 3 "Doc" None None None None.

(** The sample page has been cited and rendered. *)
Definition previewShown : Home :=
  fst (useEffect (Client fivePages) (answered singleReply)).

(** The sample page has been cited while the network was down. *)
Definition previewFailed : Home :=
  fst (useEffect (Client offline) (answered singleReply)).

(** A further question is asked in the browser [B] and answered by [reply]:
    the message list changes when the question is appended (line 129) and
    again when the answer is (lines 195 and 211), and the effect runs after
    each change. *)
Definition askedAgain (B : Browser) (reply : Completion ChatResponse)
  (h : Home) : Home :=
  let sent := step (setInput "again" h) SubmitSent in
  let shown := fst (useEffect (Client B) sent) in
  fst (useEffect (Client B)
         (fst (handleSubmit_answer (previews sent) reply shown))).

(** How many of the documents have this locator and page. *)
Definition citationsOf (u : string) (p : Z) (docs : list DocumentPreview)
  : nat :=
  length (List.filter
            (fun d => bool_decide (url d = u) && bool_decide (page d = p))
            docs).

(** ** Vocabulary of the properties *)

(** How the pipeline of lines 72-106 can fail: the document cannot be opened,
    the page cannot be fetched, a canvas gives no drawing surface, or a
    rasterization is rejected. *)
Inductive PipelineFailure (B : Browser) (doc : DocumentPreview)
  : Thrown -> Prop :=
| OpenFailure e :
    getDocument B (url doc) = Throw e -> PipelineFailure B doc e
| PageFailure pdf e :
    getDocument B (url doc) = Normal pdf ->
    getPage B pdf (page doc) = Throw e -> PipelineFailure B doc e
| SmallSurfaceFailure pdf pg :
    getDocument B (url doc) = Normal pdf ->
    getPage B pdf (page doc) = Normal pg ->
    getContext B 0%nat (createCanvas (getViewport B pg (1 # 2))) = false ->
    PipelineFailure B doc (ErrorObject "Failed to get small canvas context")
| SmallRenderFailure pdf pg e :
    getDocument B (url doc) = Normal pdf ->
    getPage B pdf (page doc) = Normal pg ->
    getContext B 0%nat (createCanvas (getViewport B pg (1 # 2))) = true ->
    render B pg (getViewport B pg (1 # 2)) = Throw e ->
    PipelineFailure B doc e
| LargeSurfaceFailure pdf pg smallImage :
    getDocument B (url doc) = Normal pdf ->
    getPage B pdf (page doc) = Normal pg ->
    getContext B 0%nat (createCanvas (getViewport B pg (1 # 2))) = true ->
    render B pg (getViewport B pg (1 # 2)) = Normal smallImage ->
    getContext B 1%nat (createCanvas (getViewport B pg (3 # 2))) = false ->
    PipelineFailure B doc (ErrorObject "Failed to get large canvas context")
| LargeRenderFailure pdf pg smallImage e :
    getDocument B (url doc) = Normal pdf ->
    getPage B pdf (page doc) = Normal pg ->
    getContext B 0%nat (createCanvas (getViewport B pg (1 # 2))) = true ->
    render B pg (getViewport B pg (1 # 2)) = Normal smallImage ->
    getContext B 1%nat (createCanvas (getViewport B pg (3 # 2))) = true ->
    render B pg (getViewport B pg (3 # 2)) = Throw e ->
    PipelineFailure B doc e.

(** Every step of the pipeline succeeds, with these handles and images. *)
Definition pipelineSucceeds (B : Browser) (doc : DocumentPreview)
  (pg : PDFPageProxy) (smallImage largeImage : string) : Prop :=
  (exists pdf, getDocument B (url doc) = Normal pdf
               /\ getPage B pdf (page doc) = Normal pg)
  /\ getContext B 0%nat (createCanvas (getViewport B pg (1 # 2))) = true
  /\ render B pg (getViewport B pg (1 # 2)) = Normal smallImage
  /\ getContext B 1%nat (createCanvas (getViewport B pg (3 # 2))) = true
  /\ render B pg (getViewport B pg (3 # 2)) = Normal largeImage.

(** Both bitmaps of a key are cached. *)
Definition ready (h : Home) (key : string) : Prop :=
  is_Some (previews h !! key) /\ is_Some (largePreviews h !! key).

(** The two bitmap caches hold the same keys, and data URLs only. *)
Definition cachesAgree (h : Home) : Prop :=
  forall key,
    (is_Some (previews h !! key) <-> is_Some (largePreviews h !! key))
    /\ (forall v, previews h !! key = Some v -> truthy v = true)
    /\ (forall v, largePreviews h !! key = Some v -> truthy v = true).

(** ** The form, and vocabulary of the further properties *)

(** [disabled={!input.trim()}] of the submit button (line 411). *)
Definition submitDisabled (h : Home) : bool :=
  negb (truthy (trim (input h))).

(** [messages.length === 0] (line 265): the welcome screen is shown instead
    of the message list. *)
Definition showsWelcome (h : Home) : bool :=
  match messages h with
  | [] => true
  | _ :: _ => false
  end.

(** The keys under which the documents are cached. *)
Definition keysOf (docs : list DocumentPreview) : gset string :=
  list_to_set (map (fun d => previewKey (url d) (page d)) docs).

(** The steps of [generatePreview]. *)
Definition isPreviewStep (ev : Event) : bool :=
  match ev with
  | PreviewStarted _ _ | PreviewSettled _ _ => true
  | _ => false
  end.

(** The step starts a [generatePreview] call for this key. *)
Definition startsKey (key : string) (ev : Event) : bool :=
  match ev with
  | PreviewStarted _ doc =>
      bool_decide (previewKey (url doc) (page doc) = key)
  | _ => false
  end.

(** The engine calls of a render in which every step is reached. *)
Definition allCalls (doc : DocumentPreview) : list EngineCall :=
  [CallGetDocument (url doc); CallGetPage (page doc);
   CallRender (1 # 2); CallRender (3 # 2)].

(** Every document of the message list has a cleaned locator. *)
Definition messagesClean (h : Home) : Prop :=
  forall d, In d (allDocuments (messages h)) -> cleanUrl (url d) = url d.

(** The preview selected for the modal, if any, has a cleaned locator and a
    large bitmap that is not empty. *)
Definition modalHasImage (h : Home) : Prop :=
  forall d,
    selectedPreview h = Some d ->
    cleanUrl (url d) = url d
    /\ exists src, largePreviewUrl d = Some src /\ truthy src = true.

(** The four preview stores hold for [key] in [h'] what they hold in [h]. *)
Definition sameAt (key : string) (h h' : Home) : Prop :=
  previews h' !! key = previews h !! key
  /\ largePreviews h' !! key = largePreviews h !! key
  /\ previewErrors h' !! key = previewErrors h !! key
  /\ (key ∈ loadingPreviews h' <-> key ∈ loadingPreviews h).

(** Every key in flight is the key of a render that was requested. *)
Definition inFlightRequested (h : Home) : Prop :=
  forall key,
    key ∈ loadingPreviews h ->
    exists u p, key = previewKey u p /\ (1 <= rendererInvocations u p h)%nat.

(** * Properties *)

(** ** Strings *)

Lemma first_split_app (sep : ascii) (base rest : string) :
  contains sep base = false ->
  first (split sep (base +:+ rest)) = base +:+ first (split sep rest).
Proof.
  induction base as [|c base IH]; intros Hfree; [reflexivity|].
  simpl in Hfree. apply orb_false_iff in Hfree as [Hc Hbase].
  specialize (IH Hbase).
  change (String c base +:+ rest) with (String c (base +:+ rest)).
  change (String c base +:+ first (split sep rest))
    with (String c (base +:+ first (split sep rest))).
  cbn [split]. rewrite Hc. rewrite <- IH.
  now destruct (split sep (base +:+ rest)) as [|piece pieces].
Qed.

Lemma first_split_sep (sep : ascii) (rest : string) :
  first (split sep (String sep rest)) = "".
Proof. cbn [split]. now rewrite Ascii.eqb_refl. Qed.

Lemma append_empty_r (s : string) : s +:+ "" = s.
Proof.
  induction s as [|c s IH]; [reflexivity|].
  change (String c s +:+ "") with (String c (s +:+ "")). now rewrite IH.
Qed.

Lemma first_split_free (sep : ascii) (base : string) :
  contains sep base = false -> first (split sep base) = base.
Proof.
  intros Hfree. rewrite <- (append_empty_r base) at 1.
  rewrite first_split_app by assumption. apply append_empty_r.
Qed.

Lemma starts_with_char (c : ascii) (d : string) :
  starts_with (String c "") d = true -> exists rest, d = String c rest.
Proof.
  destruct d as [|b d]; simpl; [discriminate|].
  rewrite andb_true_r. intros Heq. apply Ascii.eqb_eq in Heq.
  subst b. now exists d.
Qed.

(** Stripping removes a decoration from an undecorated locator. *)
Lemma cleanUrl_decorated (base d : string) :
  undecorated base -> decoration d -> cleanUrl (base +:+ d) = base.
Proof.
  intros [Hhash Hquery] Hd. unfold cleanUrl.
  rewrite first_split_app by assumption.
  rewrite first_split_app by assumption.
  rewrite <- (append_empty_r base) at 2. f_equal.
  destruct Hd as [-> | [Hd | Hd]]; [reflexivity | |];
    apply starts_with_char in Hd as [rest ->].
  - now rewrite first_split_sep.
  - cbn [split]. change (Ascii.eqb "?" "#") with false. cbv iota.
    destruct (split "#" rest) as [|piece pieces];
      unfold first at 2; cbn [hd]; apply first_split_sep.
Qed.

Lemma cleanUrl_idempotent (u : string) : cleanUrl (cleanUrl u) = cleanUrl u.
Proof.
  assert (Hfirst : forall sep s, contains sep (first (split sep s)) = false).
  { intros sep s. induction s as [|c s IH]; [reflexivity|].
    cbn [split]. destruct (Ascii.eqb c sep) eqn:Hc; [reflexivity|].
    destruct (split sep s) as [|piece pieces]; unfold first in *; simpl in *;
      rewrite Hc; [reflexivity | exact IH]. }
  assert (Hkeep : forall sep sep' s, contains sep s = false ->
                    contains sep (first (split sep' s)) = false).
  { intros sep sep' s. induction s as [|c s IH]; [reflexivity|].
    simpl. intros Hs. apply orb_false_iff in Hs as [Hc Hs].
    destruct (Ascii.eqb c sep'); [reflexivity|].
    specialize (IH Hs).
    destruct (split sep' s) as [|piece pieces]; unfold first in *; simpl in *;
      rewrite Hc; [reflexivity | exact IH]. }
  unfold cleanUrl.
  rewrite (first_split_free "#" (first (split "?" (first (split "#" u))))).
  - now rewrite first_split_free by apply Hfirst.
  - apply Hkeep, Hfirst.
Qed.

Lemma previewKey_inj_page (u : string) (pa pb : Z) :
  previewKey u pa = previewKey u pb <-> pa = pb.
Proof.
  split; [|now intros ->]. unfold previewKey. intros Heq.
  apply (inj (String.append u)) in Heq.
  apply (inj (String.append "_")) in Heq.
  now apply (inj pretty) in Heq.
Qed.

Lemma trimStart_white (s : string) :
  all_white_space s = true -> trimStart s = "".
Proof.
  induction s as [|c s IH]; [reflexivity|]. simpl.
  intros Hs. apply andb_true_iff in Hs as [Hc Hs]. rewrite Hc. now apply IH.
Qed.

Lemma trim_white (s : string) : all_white_space s = true -> trim s = "".
Proof. intros Hs. unfold trim. now rewrite trimStart_white. Qed.

Lemma trimStart_head (s : string) :
  (trimStart s = "" /\ all_white_space s = true)
  \/ (exists c rest, trimStart s = String c rest /\ is_white_space c = false
                     /\ all_white_space s = false).
Proof.
  induction s as [|c s IH]; [now left|]. cbn [trimStart all_white_space].
  destruct (is_white_space c) eqn:Hc; [exact IH|].
  right. now exists c, s.
Qed.

(** Only blank inputs trim to the empty string. *)
Lemma trim_empty_iff (s : string) :
  trim s = "" <-> all_white_space s = true.
Proof.
  split; [|apply trim_white]. unfold trim.
  destruct (trimStart_head s) as [[_ Hwhite] | (c & rest & -> & Hc & _)];
    [auto|].
  cbn [trimEnd]. rewrite Hc. now destruct (trimEnd rest).
Qed.

(** ** Preview key derivation *)

(** The key that [generatePreview] and the view build for the document of a
    message is the derived key of the citation it was made from. *)
Lemma assistantDocument_key (snapshot : gmap string string)
  (c : ResponseDocument) :
  previewKey (url (assistantDocument snapshot c))
    (page (assistantDocument snapshot c)) = deriveKey c.
Proof. reflexivity. Qed.

(** C3. Two citations whose locators are the same undecorated locator
    followed by a fragment and/or query decoration have the same preview key
    if and only if their page numbers are equal; the citations
    [https://x/doc.pdf?v=2] and [https://x/doc.pdf#page=1], both of page 3,
    have the same key. *)
Theorem deriveKey_decorations (base da db ta tb : string) (pa pb : Z) :
  undecorated base -> decoration da -> decoration db ->
  (deriveKey (mkResponseDocument ta (base +:+ da) pa)
   = deriveKey (mkResponseDocument tb (base +:+ db) pb) <-> pa = pb)
  /\ deriveKey (mkResponseDocument ta "https://x/doc.pdf?v=2" 3)
     = deriveKey (mkResponseDocument tb "https://x/doc.pdf#page=1" 3).
Proof.
  intros Hbase Hda Hdb. split; [|reflexivity].
  unfold deriveKey. cbn [r_url r_page].
  rewrite !cleanUrl_decorated by assumption.
  apply previewKey_inj_page.
Qed.

Lemma deriveKey_decorations_witness :
  (deriveKey (mkResponseDocument "Doc" "https://x/doc.pdf?v=2" 3)
   = deriveKey (mkResponseDocument "Doc" "https://x/doc.pdf#page=1" 4)
   <-> 3 = 4)
  /\ deriveKey (mkResponseDocument "Doc" "https://x/doc.pdf?v=2" 3)
     = deriveKey (mkResponseDocument "Doc" "https://x/doc.pdf#page=1" 3).
Proof.
  apply (deriveKey_decorations "https://x/doc.pdf" "?v=2" "#page=1"
           "Doc" "Doc" 3 4).
  - split; reflexivity.
  - right; right; reflexivity.
  - right; left; reflexivity.
Defined.

(** ** [handleSubmit] *)

(** C10. Submitting an input that is empty or made of white space only
    changes nothing: the messages, the loading flag, the four preview
    stores and the list of requests issued are those of before. *)
Theorem handleSubmit_blank (reply : Completion ChatResponse) (h : Home) :
  all_white_space (input h) = true ->
  handleSubmit reply h = (h, Normal tt)
  /\ step h SubmitSent = h
  /\ messages (fst (handleSubmit reply h)) = messages h
  /\ isLoading (fst (handleSubmit reply h)) = isLoading h
  /\ previews (fst (handleSubmit reply h)) = previews h
  /\ largePreviews (fst (handleSubmit reply h)) = largePreviews h
  /\ loadingPreviews (fst (handleSubmit reply h)) = loadingPreviews h
  /\ previewErrors (fst (handleSubmit reply h)) = previewErrors h
  /\ effects (fst (handleSubmit reply h)) = effects h.
Proof.
  intros Hblank.
  assert (Hsubmit : handleSubmit reply h = (h, Normal tt)).
  { unfold handleSubmit. now rewrite trim_white. }
  rewrite Hsubmit. cbn [fst step]. rewrite trim_white by assumption.
  repeat split; reflexivity.
Qed.

Lemma handleSubmit_blank_witness :
  handleSubmit sampleReply (setInput "   " initialHome)
  = (setInput "   " initialHome, Normal tt).
Proof.
  apply (handleSubmit_blank sampleReply (setInput "   " initialHome)).
  reflexivity.
Defined.

(** A submission that is not blank does change the state. *)
Example handleSubmit_question :
  map content (messages (answered sampleReply)) = ["q"; "See page 3."]
  /\ effects (answered sampleReply) = [QueryPosted "q"]
  /\ input (answered sampleReply) = "".
Proof. repeat split; reflexivity. Qed.

(** ** The render pipeline *)

Lemma scale_getViewport (B : Browser) (pg : PDFPageProxy) (s : Q) :
  scale (getViewport B pg s) = s.
Proof. unfold getViewport. now destruct (viewportSize B pg s). Qed.

Ltac pipeline_cases B doc :=
  unfold renderPages, traced_bind, awaiting, throwing, traced_ret;
  destruct (getDocument B (url doc)) as [pdf|?] eqn:Hopen; cbn -[getViewport];
  [destruct (getPage B pdf (page doc)) as [pg|?] eqn:Hpage; cbn -[getViewport];
   [destruct (getContext B 0%nat (createCanvas (getViewport B pg (1 # 2))))
      eqn:Hsurface1; cbn -[getViewport];
    [destruct (render B pg (getViewport B pg (1 # 2))) as [smallImage|?]
       eqn:Hrender1; cbn -[getViewport];
     [destruct (getContext B 1%nat (createCanvas (getViewport B pg (3 # 2))))
        eqn:Hsurface2; cbn -[getViewport];
      [destruct (render B pg (getViewport B pg (3 # 2))) as [largeImage|?]
         eqn:Hrender2; cbn -[getViewport] | ] | ] | ] | ] | ].

(** The pipeline either succeeds at every step and gives the two painted
    canvases after exactly four engine calls, or fails at one step and gives
    what that step threw. *)
Lemma renderPages_outcome (B : Browser) (doc : DocumentPreview) :
  (exists pg smallImage largeImage,
      pipelineSucceeds B doc pg smallImage largeImage
      /\ renderPages B doc
         = ([CallGetDocument (url doc); CallGetPage (page doc);
             CallRender (1 # 2); CallRender (3 # 2)],
            Normal (paint smallImage (createCanvas (getViewport B pg (1 # 2))),
                    paint largeImage (createCanvas (getViewport B pg (3 # 2))))))
  \/ (exists e, PipelineFailure B doc e /\ snd (renderPages B doc) = Throw e).
Proof.
  pipeline_cases B doc.
  - left. exists pg, smallImage, largeImage. split.
    + unfold pipelineSucceeds. eauto 10.
    + now rewrite !scale_getViewport.
  - right. eexists. split; [|reflexivity]. eapply LargeRenderFailure; eauto.
  - right. eexists. split; [|reflexivity]. eapply LargeSurfaceFailure; eauto.
  - right. eexists. split; [|reflexivity]. eapply SmallRenderFailure; eauto.
  - right. eexists. split; [|reflexivity]. eapply SmallSurfaceFailure; eauto.
  - right. eexists. split; [|reflexivity]. eapply PageFailure; eauto.
  - right. eexists. split; [|reflexivity]. eapply OpenFailure; eauto.
Qed.

Lemma renderPages_failure (B : Browser) (doc : DocumentPreview) (e : Thrown) :
  PipelineFailure B doc e -> snd (renderPages B doc) = Throw e.
Proof.
  intros Hfail.
  unfold renderPages, traced_bind, awaiting, throwing, traced_ret.
  destruct Hfail;
    repeat match goal with
      | H : _ = _ |- _ => rewrite H; cbn -[getViewport]; clear H
      end; reflexivity.
Qed.

Lemma renderPages_success (B : Browser) (doc : DocumentPreview)
  (pg : PDFPageProxy) (smallImage largeImage : string) :
  pipelineSucceeds B doc pg smallImage largeImage ->
  renderPages B doc
  = ([CallGetDocument (url doc); CallGetPage (page doc);
      CallRender (1 # 2); CallRender (3 # 2)],
     Normal (paint smallImage (createCanvas (getViewport B pg (1 # 2))),
             paint largeImage (createCanvas (getViewport B pg (3 # 2))))).
Proof.
  intros ([pdf [Hopen Hpage]] & Hs1 & Hr1 & Hs2 & Hr2).
  unfold renderPages, traced_bind, awaiting, throwing, traced_ret.
  rewrite Hopen; cbn -[getViewport]. rewrite Hpage; cbn -[getViewport].
  rewrite Hs1; cbn -[getViewport]. rewrite Hr1; cbn -[getViewport].
  rewrite Hs2; cbn -[getViewport]. rewrite Hr2; cbn -[getViewport].
  now rewrite !scale_getViewport.
Qed.

Lemma fivePages_rejects : rejects_pages_out_of_range fivePages.
Proof.
  intros pdf n Hn. cbn in *.
  destruct (Z.leb_spec n 5) as [Hle|_]; [lia|].
  rewrite andb_false_r. eauto.
Qed.

(** C8. A successful render gives exactly two bitmaps of the requested page,
    the small one painted at scale 0.5 and then the large one at scale 1.5;
    the render fails when the page number exceeds the page count and when
    either canvas gives no drawing surface. *)
Theorem renderPages_two_bitmaps (B : Browser) (doc : DocumentPreview) :
  rejects_pages_out_of_range B ->
  (forall calls small large,
      renderPages B doc = (calls, Normal (small, large)) ->
      exists pg smallImage largeImage,
        pipelineSucceeds B doc pg smallImage largeImage
        /\ small = paint smallImage (createCanvas (getViewport B pg (1 # 2)))
        /\ large = paint largeImage (createCanvas (getViewport B pg (3 # 2)))
        /\ scale (getViewport B pg (1 # 2)) = 1 # 2
        /\ scale (getViewport B pg (3 # 2)) = 3 # 2
        /\ calls = [CallGetDocument (url doc); CallGetPage (page doc);
                    CallRender (1 # 2); CallRender (3 # 2)])
  /\ (forall pg smallImage largeImage,
        pipelineSucceeds B doc pg smallImage largeImage ->
        renderPages B doc
        = ([CallGetDocument (url doc); CallGetPage (page doc);
            CallRender (1 # 2); CallRender (3 # 2)],
           Normal (paint smallImage (createCanvas (getViewport B pg (1 # 2))),
                   paint largeImage
                     (createCanvas (getViewport B pg (3 # 2))))))
  /\ (forall pdf,
        getDocument B (url doc) = Normal pdf ->
        numPages B pdf < page doc ->
        exists e, snd (renderPages B doc) = Throw e)
  /\ (forall pdf pg,
        getDocument B (url doc) = Normal pdf ->
        getPage B pdf (page doc) = Normal pg ->
        getContext B 0%nat (createCanvas (getViewport B pg (1 # 2))) = false ->
        snd (renderPages B doc)
        = Throw (ErrorObject "Failed to get small canvas context"))
  /\ (forall pdf pg smallImage,
        getDocument B (url doc) = Normal pdf ->
        getPage B pdf (page doc) = Normal pg ->
        getContext B 0%nat (createCanvas (getViewport B pg (1 # 2))) = true ->
        render B pg (getViewport B pg (1 # 2)) = Normal smallImage ->
        getContext B 1%nat (createCanvas (getViewport B pg (3 # 2))) = false ->
        snd (renderPages B doc)
        = Throw (ErrorObject "Failed to get large canvas context")).
Proof.
  intros Hrange. repeat apply conj.
  - intros calls small large Hrun.
    destruct (renderPages_outcome B doc)
      as [(pg & smallImage & largeImage & Hok & Heq) | (e & _ & Hthrow)].
    + rewrite Heq in Hrun. injection Hrun as <- <- <-.
      exists pg, smallImage, largeImage.
      rewrite !scale_getViewport. repeat split; auto; apply Hok.
    + rewrite Hrun in Hthrow. discriminate.
  - apply renderPages_success.
  - intros pdf Hopen Hbeyond.
    destruct (Hrange pdf (page doc) Hbeyond) as [e Hpage].
    exists e. apply renderPages_failure. eapply PageFailure; eauto.
  - intros pdf pg Hopen Hpage Hsurface.
    apply renderPages_failure. eapply SmallSurfaceFailure; eauto.
  - intros pdf pg smallImage Hopen Hpage Hs1 Hr1 Hs2.
    apply renderPages_failure. eapply LargeSurfaceFailure; eauto.
Qed.

Lemma renderPages_two_bitmaps_witness :
  exists e,
    snd (renderPages fivePages
           (mkDocumentPreview "a.pdf" 9999 "A" None None None None))
    = Throw e.
Proof.
  destruct (renderPages_two_bitmaps fivePages
              (mkDocumentPreview "a.pdf" 9999 "A" None None None None)
              fivePages_rejects) as (_ & _ & Hbeyond & _).
  apply (Hbeyond 7%N); [reflexivity | reflexivity].
Defined.

(** Page 1 of the sample document renders, page 9999 does not, and a
    missing second surface stops the call after the small bitmap. *)
Example renderPages_samples :
  renderPages fivePages sampleDoc
  = ([CallGetDocument "a.pdf"; CallGetPage 1;
      CallRender (1 # 2); CallRender (3 # 2)],
     Normal (mkCanvas (612 # 2) (792 # 2) (Some "iVBOR1"),
             mkCanvas (1836 # 2) (2376 # 2) (Some "iVBOR1")))
  /\ renderPages oneSurface sampleDoc
     = ([CallGetDocument "a.pdf"; CallGetPage 1; CallRender (1 # 2)],
        Throw (ErrorObject "Failed to get large canvas context")).
Proof. split; reflexivity. Qed.

(** ** The steps of [generatePreview] *)

Lemma toDataURL_truthy (c : Canvas) : truthy (toDataURL c) = true.
Proof. unfold toDataURL. now destruct (png c). Qed.

Lemma generatePreview_settle_success (doc : DocumentPreview)
  (small large : Canvas) (h : Home) :
  generatePreview_settle doc (Normal (small, large)) h
  = (setLoadingPreviews
       (fun prev => prev ∖ {[previewKey (url doc) (page doc)]})
       (setLargePreviews
          (fun prev => <[previewKey (url doc) (page doc) := toDataURL large]> prev)
          (setPreviews
             (fun prev =>
                <[previewKey (url doc) (page doc) := toDataURL small]> prev)
             h)),
     Normal tt).
Proof. reflexivity. Qed.

Lemma generatePreview_settle_failure (doc : DocumentPreview) (e : Thrown)
  (h : Home) :
  generatePreview_settle doc (Throw e) h
  = (setLoadingPreviews
       (fun prev => prev ∖ {[previewKey (url doc) (page doc)]})
       (setPreviewErrors
          (fun prev => <[previewKey (url doc) (page doc) := catchMessage e]> prev)
          h),
     Normal tt).
Proof. reflexivity. Qed.

(** Splits a step into the branches its handler can take. *)
Ltac step_cases h ev :=
  destruct ev as [s | | snapshot reply | snapshot doc
                 | doc [[small large]|e] | doc | doc | ];
  cbn [step];
  [ | destruct (negb (truthy (trim (input h))))
    | destruct reply as [[t i x [docs|]]|e];
      unfold handleSubmit_answer, tryCatchFinally, andThen, update;
      cbn [r_documents text];
      [destruct (truthy t) | | ]
    | 
    | rewrite generatePreview_settle_success
    | rewrite generatePreview_settle_failure
    | unfold handlePreviewClick; destruct (selectForModal h doc)
    | 
    | ];
  cbn.

Lemma step_ready (h : Home) (ev : Event) (key : string) :
  ready h key -> ready (step h ev) key.
Proof.
  unfold ready. intros [Hsmall Hlarge].
  step_cases h ev; try (split; assumption).
  split; rewrite lookup_insert; case_decide; eauto.
Qed.

Lemma step_previewErrors (h : Home) (ev : Event) (key : string) :
  is_Some (previewErrors h !! key) ->
  is_Some (previewErrors (step h ev) !! key).
Proof.
  intros Herr. step_cases h ev; try assumption.
  rewrite lookup_insert; case_decide; eauto.
Qed.

Lemma step_cachesAgree (h : Home) (ev : Event) :
  cachesAgree h -> cachesAgree (step h ev).
Proof.
  unfold cachesAgree. intros Hagree.
  step_cases h ev; try assumption.
  intros key. destruct (Hagree key) as (Hdom & Hsmall & Hlarge).
  rewrite !lookup_insert. case_decide.
  - repeat split; eauto; intros v [= <-]; apply toDataURL_truthy.
  - auto.
Qed.

Lemma rendererInvocations_emit (u : string) (p : Z) (e : Effect) (h : Home) :
  rendererInvocations u p (emit e h)
  = (rendererInvocations u p h
     + if isRendererInvoked u p e then 1 else 0)%nat.
Proof.
  unfold rendererInvocations, emit. cbn [effects].
  rewrite List.filter_app, length_app. cbn [List.filter].
  now destruct (isRendererInvoked u p e).
Qed.

Lemma step_rendererInvocations (u : string) (p : Z) (h : Home) (ev : Event) :
  rendererInvocations u p (step h ev)
  = (rendererInvocations u p h + if isStartFor u p ev then 1 else 0)%nat.
Proof.
  destruct ev as [s | | snapshot reply | snapshot doc
                 | doc [[small large]|e] | doc | doc | ];
    cbn [step isStartFor]; try (now rewrite Nat.add_0_r).
  - destruct (negb (truthy (trim (input h)))); [now rewrite Nat.add_0_r|].
    unfold handleSubmit_send. rewrite rendererInvocations_emit.
    reflexivity.
  - rewrite Nat.add_0_r.
    destruct reply as [[t i x [docs|]]|e];
      unfold handleSubmit_answer, tryCatchFinally, andThen, update;
      cbn [r_documents text]; [destruct (truthy t) | | ]; reflexivity.
  - unfold generatePreview_start. rewrite rendererInvocations_emit.
    reflexivity.
  - rewrite Nat.add_0_r. unfold handlePreviewClick.
    now destruct (selectForModal h doc).
  - rewrite Nat.add_0_r. unfold handleDocumentClick.
    now rewrite rendererInvocations_emit.
Qed.

Lemma run_app (h : Home) (evs evs' : list Event) :
  run h (evs ++ evs') = run (run h evs) evs'.
Proof. apply fold_left_app. Qed.

Lemma run_ready (evs : list Event) (h : Home) (key : string) :
  ready h key -> ready (run h evs) key.
Proof.
  revert h. induction evs as [|ev evs IH]; intros h Hready; [assumption|].
  apply IH, step_ready, Hready.
Qed.

Lemma run_previewErrors (evs : list Event) (h : Home) (key : string) :
  is_Some (previewErrors h !! key) ->
  is_Some (previewErrors (run h evs) !! key).
Proof.
  revert h. induction evs as [|ev evs IH]; intros h Herr; [assumption|].
  apply IH, step_previewErrors, Herr.
Qed.

Lemma run_cachesAgree (evs : list Event) (h : Home) :
  cachesAgree h -> cachesAgree (run h evs).
Proof.
  revert h. induction evs as [|ev evs IH]; intros h Hagree; [assumption|].
  apply IH, step_cachesAgree, Hagree.
Qed.

Lemma reachable_cachesAgree (h : Home) : reachable h -> cachesAgree h.
Proof.
  intros [evs ->]. apply run_cachesAgree.
  intros key. cbn. rewrite !lookup_empty.
  repeat split; try discriminate; intros [v Hv]; discriminate.
Qed.

Lemma run_rendererInvocations (u : string) (p : Z) (evs : list Event)
  (h : Home) :
  rendererInvocations u p (run h evs)
  = (rendererInvocations u p h + startsFor u p evs)%nat.
Proof.
  revert h. induction evs as [|ev evs IH]; intros h.
  - cbn. now rewrite Nat.add_0_r.
  - cbn [run fold_left]. fold (run (step h ev) evs).
    rewrite IH, step_rendererInvocations.
    unfold startsFor. cbn [List.filter].
    destruct (isStartFor u p ev); cbn [length]; lia.
Qed.

(** ** Whole calls and the effect as runs *)

Lemma generatePreview_run (B : Browser) (snapshot : gmap string string)
  (doc : DocumentPreview) (h : Home) :
  generatePreview (Client B) snapshot doc h
  = (run h (previewEvents B snapshot doc), Normal tt).
Proof.
  unfold generatePreview, previewEvents. cbn [configurePdfjs run fold_left step].
  destruct (snd (renderPages B doc)) as [[small large]|e]; reflexivity.
Qed.

(** Without pdf.js a call leaves the state alone: on the server it
    returns, and when the import is rejected so is its promise. *)
Lemma generatePreview_without_pdfjs (env : Env)
  (snapshot : gmap string string) (doc : DocumentPreview) (h : Home) :
  (forall B, env <> Client B) ->
  fst (generatePreview env snapshot doc h) = h.
Proof.
  intros Hnone.
  destruct env as [|B|e]; [|now destruct (Hnone B)|]; reflexivity.
Qed.

Lemma forEach_documents_run (B : Browser) (snapshot : gmap string string)
  (docs : list DocumentPreview) (h : Home) :
  forEach docs (fun doc => detached (generatePreview (Client B) snapshot doc))
    h
  = (run h (flat_map (previewEvents B snapshot) docs), Normal tt).
Proof.
  revert h. induction docs as [|doc docs IH]; intros h; [reflexivity|].
  cbn [forEach flat_map]. unfold andThen, detached.
  rewrite generatePreview_run, IH, run_app. reflexivity.
Qed.

Lemma forEach_messages_run (B : Browser) (snapshot : gmap string string)
  (ms : list Message) (h : Home) :
  forEach ms
    (fun message =>
       match documents message with
       | Some docs =>
           forEach docs
             (fun doc => detached (generatePreview (Client B) snapshot doc))
       | None => fun h' => (h', Normal tt)
       end) h
  = (run h (flat_map (previewEvents B snapshot) (allDocuments ms)), Normal tt).
Proof.
  revert h. induction ms as [|m ms IH]; intros h; [reflexivity|].
  cbn [forEach]. unfold andThen, allDocuments. cbn [flat_map].
  fold (allDocuments ms). rewrite flat_map_app, run_app.
  destruct (documents m) as [docs|]; cbn [default].
  - rewrite forEach_documents_run. apply IH.
  - apply IH.
Qed.

Lemma useEffect_run (B : Browser) (h : Home) :
  useEffect (Client B) h
  = (run h (flat_map (previewEvents B (previews h))
              (allDocuments (messages h))), Normal tt).
Proof. apply forEach_messages_run. Qed.

Lemma useEffect_without_pdfjs (env : Env) (h : Home) :
  (forall B, env <> Client B) -> useEffect env h = (h, Normal tt).
Proof.
  intros Hnone. unfold useEffect. generalize (previews h) as snapshot.
  generalize (messages h) as ms. intros ms snapshot. revert h.
  induction ms as [|m ms IH]; intros h; [reflexivity|].
  cbn [forEach]. unfold andThen.
  destruct (documents m) as [docs|]; [|apply IH].
  assert (Hdocs : forEach docs
                    (fun doc => detached (generatePreview env snapshot doc)) h
                  = (h, Normal tt)).
  { induction docs as [|doc docs IHd]; [reflexivity|].
    cbn [forEach]. unfold andThen, detached.
    now rewrite generatePreview_without_pdfjs. }
  rewrite Hdocs. apply IH.
Qed.

Lemma run_previewEvents_ready (B : Browser) (snapshot : gmap string string)
  (doc : DocumentPreview) (pg : PDFPageProxy) (smallImage largeImage : string)
  (h : Home) :
  pipelineSucceeds B doc pg smallImage largeImage ->
  ready (run h (previewEvents B snapshot doc))
    (previewKey (url doc) (page doc)).
Proof.
  intros Hok. unfold previewEvents.
  rewrite (renderPages_success B doc pg smallImage largeImage Hok).
  cbn [snd run fold_left step]. rewrite generatePreview_settle_success.
  unfold ready. cbn. rewrite !lookup_insert_eq. eauto.
Qed.

Lemma useEffect_ready (B : Browser) (h : Home) (doc : DocumentPreview)
  (pg : PDFPageProxy) (smallImage largeImage : string) :
  In doc (allDocuments (messages h)) ->
  pipelineSucceeds B doc pg smallImage largeImage ->
  ready (fst (useEffect (Client B) h)) (previewKey (url doc) (page doc)).
Proof.
  intros Hin Hok. rewrite useEffect_run. cbn [fst].
  apply in_split in Hin as (before & after & ->).
  rewrite flat_map_app. cbn [flat_map]. rewrite !run_app.
  apply run_ready. eapply run_previewEvents_ready, Hok.
Qed.

Lemma useEffect_completes (env : Env) (h : Home) :
  snd (useEffect env h) = Normal tt.
Proof.
  destruct env as [|B|e];
    [now rewrite useEffect_without_pdfjs | now rewrite useEffect_run
    | now rewrite useEffect_without_pdfjs].
Qed.

Lemma generatePreview_completes (B : Browser) (snapshot : gmap string string)
  (doc : DocumentPreview) (h : Home) :
  snd (generatePreview (Client B) snapshot doc h) = Normal tt.
Proof. now rewrite generatePreview_run. Qed.

(** ** Failures of the render *)

(** C4. Whatever step of the pipeline fails (opening the document, fetching
    the page, acquiring a canvas context, rasterizing), [generatePreview]
    catches the failure and records its message under the key of the
    citation, the bitmap caches being left alone, and its promise is
    fulfilled, as it is after every call that got pdf.js; the call never
    throws into its caller, so the effect that submits every citation of
    every message never throws either, and every citation whose render
    succeeds is cached whatever happened to the others. *)
Theorem generatePreview_never_throws (B : Browser)
  (snapshot : gmap string string) (doc : DocumentPreview) (e : Thrown)
  (h : Home) :
  PipelineFailure B doc e ->
  snd (generatePreview (Client B) snapshot doc h) = Normal tt
  /\ previewErrors (fst (generatePreview (Client B) snapshot doc h))
       !! previewKey (url doc) (page doc) = Some (catchMessage e)
  /\ previews (fst (generatePreview (Client B) snapshot doc h)) = previews h
  /\ largePreviews (fst (generatePreview (Client B) snapshot doc h))
     = largePreviews h
  /\ (forall B' snapshot' doc' h',
        snd (generatePreview (Client B') snapshot' doc' h') = Normal tt)
  /\ (forall env snapshot' doc' h',
        snd (detached (generatePreview env snapshot' doc') h') = Normal tt)
  /\ (forall env h', snd (useEffect env h') = Normal tt)
  /\ (forall h' other pg smallImage largeImage,
        In other (allDocuments (messages h')) ->
        pipelineSucceeds B other pg smallImage largeImage ->
        ready (fst (useEffect (Client B) h'))
          (previewKey (url other) (page other))).
Proof.
  intros Hfail.
  assert (Hcall : generatePreview (Client B) snapshot doc h
                  = (fst (generatePreview_settle doc (Throw e)
                            (generatePreview_start snapshot doc h)),
                     Normal tt)).
  { unfold generatePreview. cbn [configurePdfjs].
    now rewrite (renderPages_failure B doc e Hfail). }
  rewrite Hcall, generatePreview_settle_failure. cbn [fst snd].
  repeat apply conj.
  - reflexivity.
  - cbn. apply lookup_insert_eq.
  - reflexivity.
  - reflexivity.
  - apply generatePreview_completes.
  - reflexivity.
  - apply useEffect_completes.
  - intros h' other pg smallImage largeImage. apply useEffect_ready.
Qed.

Lemma generatePreview_never_throws_witness :
  snd (generatePreview (Client offline) ∅ sampleDoc initialHome) = Normal tt
  /\ previewErrors (fst (generatePreview (Client offline) ∅ sampleDoc
                           initialHome)) !! "a.pdf_1"
     = Some "Failed to fetch".
Proof.
  destruct (generatePreview_never_throws offline ∅ sampleDoc
              (ErrorObject "Failed to fetch") initialHome)
    as (Hdone & Herr & _).
  - apply OpenFailure. reflexivity.
  - split; [exact Hdone | exact Herr].
Defined.

(** A citation of page 9999 fails and the citation of page 1 that follows
    it is rendered all the same. *)
Example bad_citation_then_good :
  map (thumbnail (fst (useEffect (Client fivePages) (answered mixedReply))))
    (allDocuments (messages (answered mixedReply)))
  = [OpenPdfButton; PreviewImage "data:image/png;base64,iVBOR1"].
Proof. vm_compute. reflexivity. Qed.

(** C5, as the code has it. A render attempt is all or nothing: on success
    both bitmap caches receive the entry of the key and the error map is
    left alone; on failure neither cache is written and the error map
    receives the message of the thrown [Error], or [Unknown error] for any
    other value, which is empty exactly when the thrown [Error] has an empty
    message; and no reachable state has a key in only one of the caches. *)
Theorem generatePreview_all_or_nothing (doc : DocumentPreview)
  (rendered : Completion (Canvas * Canvas)) (h : Home) :
  ((exists small large,
       rendered = Normal (small, large)
       /\ previews (fst (generatePreview_settle doc rendered h))
            !! previewKey (url doc) (page doc) = Some (toDataURL small)
       /\ largePreviews (fst (generatePreview_settle doc rendered h))
            !! previewKey (url doc) (page doc) = Some (toDataURL large)
       /\ previewErrors (fst (generatePreview_settle doc rendered h))
          = previewErrors h)
   \/ (exists e message,
         rendered = Throw e
         /\ previews (fst (generatePreview_settle doc rendered h)) = previews h
         /\ largePreviews (fst (generatePreview_settle doc rendered h))
            = largePreviews h
         /\ previewErrors (fst (generatePreview_settle doc rendered h))
              !! previewKey (url doc) (page doc) = Some message
         /\ message = catchMessage e
         /\ (truthy message = false <-> e = ErrorObject "")))
  /\ (forall h' key,
        reachable h' ->
        is_Some (previews h' !! key) <-> is_Some (largePreviews h' !! key)).
Proof.
  split.
  - destruct rendered as [[small large]|e].
    + left. exists small, large. rewrite generatePreview_settle_success. cbn.
      rewrite !lookup_insert_eq. auto.
    + right. exists e, (catchMessage e).
      rewrite generatePreview_settle_failure. cbn.
      rewrite lookup_insert_eq. repeat apply conj; auto.
      * destruct e as [[|c message]|]; cbn; [reflexivity | | ]; discriminate.
      * now intros ->.
  - intros h' key Hreach. apply (reachable_cachesAgree h' Hreach key).
Qed.

(** C5 fails as stated: when opening the document is rejected with an
    [Error] whose message is empty, neither cache is written and the error
    map receives the empty string, not a non-empty message; the thumbnail
    then shows neither the error affordance nor an image. *)
Lemma empty_error_message_recorded :
  snd (renderPages silent sampleDoc) = Throw (ErrorObject "")
  /\ previewErrors (fst (generatePreview (Client silent) ∅ sampleDoc
                           initialHome)) !! "a.pdf_1" = Some ""
  /\ previews (fst (generatePreview (Client silent) ∅ sampleDoc initialHome))
       !! "a.pdf_1" = None
  /\ largePreviews (fst (generatePreview (Client silent) ∅ sampleDoc
                           initialHome)) !! "a.pdf_1" = None
  /\ thumbnail (fst (generatePreview (Client silent) ∅ sampleDoc initialHome))
       sampleDoc = NoThumbnail
  /\ ~ (exists message,
          previewErrors (fst (generatePreview (Client silent) ∅ sampleDoc
                                initialHome)) !! "a.pdf_1" = Some message
          /\ message <> "").
Proof.
  assert (Hstored : previewErrors
                      (fst (generatePreview (Client silent) ∅ sampleDoc
                              initialHome)) !! "a.pdf_1" = Some "")
    by (vm_compute; reflexivity).
  repeat apply conj; try (vm_compute; reflexivity).
  intros (message & Hmessage & Hfilled).
  rewrite Hstored in Hmessage. injection Hmessage as <-. now apply Hfilled.
Qed.

(** ** The modal *)

(** C6. In every reachable state, [handlePreviewClick] finds a large bitmap
    exactly when both bitmaps of the key are cached, and it is the cached
    one; a key without cached bitmaps (never requested, in flight, or failed)
    yields none and the click leaves the state, hence the selected preview,
    as it was. *)
Theorem selectForModal_ready (h : Home) (doc : DocumentPreview) :
  reachable h ->
  (forall large,
      selectForModal h doc = Some large
      <-> ready h (previewKey (cleanUrl (url doc)) (page doc))
          /\ largePreviews h !! previewKey (cleanUrl (url doc)) (page doc)
             = Some large)
  /\ (~ ready h (previewKey (cleanUrl (url doc)) (page doc)) ->
      selectForModal h doc = None /\ handlePreviewClick doc h = h)
  /\ (previews h !! previewKey (cleanUrl (url doc)) (page doc) = None ->
      selectForModal h doc = None /\ handlePreviewClick doc h = h)
  /\ (ready h (previewKey (cleanUrl (url doc)) (page doc)) ->
      exists large,
        largePreviews h !! previewKey (cleanUrl (url doc)) (page doc)
        = Some large
        /\ selectForModal h doc = Some large
        /\ handlePreviewClick doc h
           = setSelectedPreview
               (Some (mkDocumentPreview (cleanUrl (url doc)) (page doc)
                        (title doc) (previewUrl doc) (Some large)
                        (doc_isLoading doc) (error doc))) h).
Proof.
  intros Hreach.
  destruct (reachable_cachesAgree h Hreach
              (previewKey (cleanUrl (url doc)) (page doc)))
    as (Hdom & _ & Htruthy).
  unfold handlePreviewClick, selectForModal, ready.
  destruct (largePreviews h !! previewKey (cleanUrl (url doc)) (page doc))
    as [v|] eqn:Hlarge.
  - rewrite (Htruthy v eq_refl).
    assert (Hsmall : is_Some
              (previews h !! previewKey (cleanUrl (url doc)) (page doc))).
    { apply Hdom. eauto. }
    repeat apply conj.
    + intros large. split.
      * intros [= <-]. eauto.
      * now intros [_ [= <-]].
    + intros Hnot. exfalso. apply Hnot. eauto.
    + intros Hnone. rewrite Hnone in Hsmall. now destruct Hsmall.
    + intros _. exists v. auto.
  - repeat apply conj.
    + intros large. split; [discriminate|]. now intros [_ ?].
    + auto.
    + auto.
    + intros [_ [w Hw]]. discriminate.
Qed.

Lemma selectForModal_ready_witness :
  selectForModal
    (run initialHome
       [PreviewStarted ∅ sampleDoc;
        PreviewSettled sampleDoc (snd (renderPages fivePages sampleDoc))])
    sampleDoc
  = Some "data:image/png;base64,iVBOR1".
Proof.
  destruct (selectForModal_ready
              (run initialHome
                 [PreviewStarted ∅ sampleDoc;
                  PreviewSettled sampleDoc
                    (snd (renderPages fivePages sampleDoc))])
              sampleDoc) as (Hiff & _).
  - eexists. reflexivity.
  - apply Hiff. vm_compute. repeat split; eauto.
Defined.

(** While the sample page is in flight the click does nothing; once it is
    cached the click selects the cached large bitmap. *)
Example modal_pending_then_ready :
  handlePreviewClick sampleDoc
    (run initialHome [PreviewStarted ∅ sampleDoc])
  = run initialHome [PreviewStarted ∅ sampleDoc]
  /\ largePreviewUrl
       <$> selectedPreview (handlePreviewClick sampleDoc previewShown)
     = Some (Some "data:image/png;base64,iVBOR1").
Proof. split; vm_compute; reflexivity. Qed.

(** ** Repeated calls *)

Lemma markLoading_known (snapshot : gmap string string) (key : string)
  (prev : gset string) :
  key ∈ prev \/ truthy_opt (snapshot !! key) = true ->
  markLoading snapshot key prev = prev.
Proof.
  unfold markLoading. intros [Hin | Hcached].
  - now rewrite (bool_decide_eq_true_2 _ Hin).
  - rewrite Hcached. now rewrite orb_true_r.
Qed.

Lemma markLoading_new (snapshot : gmap string string) (key : string)
  (prev : gset string) :
  key ∉ prev -> truthy_opt (snapshot !! key) = false ->
  markLoading snapshot key prev = {[key]} ∪ prev.
Proof.
  unfold markLoading. intros Hout Hmiss.
  now rewrite (bool_decide_eq_false_2 _ Hout), Hmiss.
Qed.

Lemma generatePreview_start_invokes (snapshot : gmap string string)
  (doc : DocumentPreview) (h : Home) :
  rendererInvocations (url doc) (page doc)
    (generatePreview_start snapshot doc h)
  = S (rendererInvocations (url doc) (page doc) h).
Proof.
  unfold generatePreview_start. rewrite rendererInvocations_emit.
  cbn [isRendererInvoked]. rewrite !bool_decide_eq_true_2 by reflexivity.
  change (rendererInvocations (url doc) (page doc)
            (setLoadingPreviews
               (markLoading snapshot (previewKey (url doc) (page doc))) h))
    with (rendererInvocations (url doc) (page doc) h).
  cbn [andb]. lia.
Qed.

Lemma startsFor_previewEvents (B : Browser) (snapshot : gmap string string)
  (u : string) (p : Z) (docs : list DocumentPreview) :
  startsFor u p (flat_map (previewEvents B snapshot) docs)
  = citationsOf u p docs.
Proof.
  unfold startsFor, citationsOf.
  induction docs as [|doc docs IH]; [reflexivity|].
  cbn [flat_map previewEvents app List.filter isStartFor].
  destruct (bool_decide (url doc = u) && bool_decide (page doc = p));
    cbn [length]; now rewrite IH.
Qed.

(** C1, as the code has it. Every [generatePreview] call that reaches the
    browser invokes the renderer once, whatever the state of the key: a run
    invokes it as often as it starts calls, and a run of the effect as often
    as the messages cite the page. Only the in-flight mark is deduplicated:
    the updater leaves the set alone when the key is in it or cached in the
    [previews] of the closure, and adds the key otherwise, in one step. *)
Theorem generatePreview_invokes_each_time (u : string) (p : Z) (h : Home)
  (evs : list Event) (B : Browser) (snapshot : gmap string string)
  (doc : DocumentPreview) :
  rendererInvocations u p (run h evs)
  = (rendererInvocations u p h + startsFor u p evs)%nat
  /\ rendererInvocations u p (fst (useEffect (Client B) h))
     = (rendererInvocations u p h
        + citationsOf u p (allDocuments (messages h)))%nat
  /\ rendererInvocations (url doc) (page doc)
       (fst (generatePreview (Client B) snapshot doc h))
     = S (rendererInvocations (url doc) (page doc) h)
  /\ loadingPreviews (generatePreview_start snapshot doc h)
     = markLoading snapshot (previewKey (url doc) (page doc))
         (loadingPreviews h)
  /\ (previewKey (url doc) (page doc) ∈ loadingPreviews h
      \/ truthy_opt (snapshot !! previewKey (url doc) (page doc)) = true ->
      loadingPreviews (generatePreview_start snapshot doc h)
      = loadingPreviews h)
  /\ (previewKey (url doc) (page doc) ∉ loadingPreviews h ->
      truthy_opt (snapshot !! previewKey (url doc) (page doc)) = false ->
      loadingPreviews (generatePreview_start snapshot doc h)
      = {[previewKey (url doc) (page doc)]} ∪ loadingPreviews h).
Proof.
  repeat apply conj.
  - apply run_rendererInvocations.
  - rewrite useEffect_run. cbn [fst].
    now rewrite run_rendererInvocations, startsFor_previewEvents.
  - rewrite generatePreview_run. cbn [fst].
    rewrite run_rendererInvocations. unfold startsFor, previewEvents.
    cbn [List.filter isStartFor].
    rewrite !bool_decide_eq_true_2 by reflexivity. cbn. lia.
  - reflexivity.
  - apply markLoading_known.
  - apply markLoading_new.
Qed.

(** C1 fails as stated: the two citations of one answer have the same key
    and the renderer is invoked for each of them, both when the second call
    starts while the first is in flight and when it starts after the first
    has cached its bitmaps. *)
Lemma same_key_rendered_twice :
  allDocuments (messages (answered sampleReply)) = [citedTwice; citedTwice]
  /\ bool_decide
       ("https://x/doc.pdf_3"
        ∈ loadingPreviews
            (run (answered sampleReply) [PreviewStarted ∅ citedTwice]))
     = true
  /\ rendererInvocations "https://x/doc.pdf" 3
       (run (answered sampleReply)
          [PreviewStarted ∅ citedTwice; PreviewStarted ∅ citedTwice])
     = 2%nat
  /\ rendererInvocations "https://x/doc.pdf" 3
       (fst (useEffect (Client fivePages) (answered sampleReply)))
     = 2%nat
  /\ ~ (rendererInvocations "https://x/doc.pdf" 3
          (fst (useEffect (Client fivePages) (answered sampleReply)))
        <= 1)%nat.
Proof.
  assert (Htwice : rendererInvocations "https://x/doc.pdf" 3
                     (fst (useEffect (Client fivePages)
                             (answered sampleReply))) = 2%nat)
    by (vm_compute; reflexivity).
  repeat apply conj; try (vm_compute; reflexivity).
  rewrite Htwice. lia.
Qed.

(** C2, as the code has it. An entry of the error map is never removed, but
    it does not stop rendering: a later call for the key invokes the
    renderer again; if that render fails its message replaces the entry, and
    if it succeeds both bitmaps are cached and the entry stays. *)
Theorem failed_key_rendered_again (B : Browser)
  (snapshot : gmap string string) (doc : DocumentPreview) (h : Home) :
  is_Some (previewErrors h !! previewKey (url doc) (page doc)) ->
  rendererInvocations (url doc) (page doc)
    (fst (generatePreview (Client B) snapshot doc h))
  = S (rendererInvocations (url doc) (page doc) h)
  /\ is_Some (previewErrors (fst (generatePreview (Client B) snapshot doc h))
                !! previewKey (url doc) (page doc))
  /\ (forall e,
        PipelineFailure B doc e ->
        previewErrors (fst (generatePreview (Client B) snapshot doc h))
          !! previewKey (url doc) (page doc) = Some (catchMessage e))
  /\ (forall pg smallImage largeImage,
        pipelineSucceeds B doc pg smallImage largeImage ->
        previewErrors (fst (generatePreview (Client B) snapshot doc h))
        = previewErrors h
        /\ ready (fst (generatePreview (Client B) snapshot doc h))
             (previewKey (url doc) (page doc))).
Proof.
  intros Hfailed. repeat apply conj.
  - rewrite generatePreview_run. cbn [fst].
    rewrite run_rendererInvocations. unfold startsFor, previewEvents.
    cbn [List.filter isStartFor].
    rewrite !bool_decide_eq_true_2 by reflexivity. cbn. lia.
  - rewrite generatePreview_run. cbn [fst]. now apply run_previewErrors.
  - intros e Hfail. unfold generatePreview. cbn [configurePdfjs].
    rewrite (renderPages_failure B doc e Hfail).
    rewrite generatePreview_settle_failure. cbn. apply lookup_insert_eq.
  - intros pg smallImage largeImage Hok. split.
    + unfold generatePreview. cbn [configurePdfjs].
      rewrite (renderPages_success B doc pg smallImage largeImage Hok).
      cbn [snd]. now rewrite generatePreview_settle_success.
    + rewrite generatePreview_run. cbn [fst].
      eapply run_previewEvents_ready, Hok.
Qed.

Lemma failed_key_rendered_again_witness :
  rendererInvocations "a.pdf" 1
    (fst (generatePreview (Client offline) ∅ sampleDoc previewFailed))
  = S (rendererInvocations "a.pdf" 1 previewFailed).
Proof.
  destruct (failed_key_rendered_again offline ∅ sampleDoc previewFailed)
    as (Hagain & _).
  - vm_compute. eauto.
  - exact Hagain.
Defined.

(** C2 fails as stated: the sample page failed to render, its thumbnail is
    the error affordance, and each of the two changes that a further
    question makes to the message list invokes the renderer for it once
    more. *)
Lemma failed_key_is_retried :
  thumbnail previewFailed sampleDoc = OpenPdfButton
  /\ previewErrors previewFailed !! "a.pdf_1" = Some "Failed to fetch"
  /\ rendererInvocations "a.pdf" 1 previewFailed = 1%nat
  /\ rendererInvocations "a.pdf" 1
       (askedAgain offline (Throw (ErrorObject "Failed to fetch"))
          previewFailed)
     = 3%nat.
Proof. repeat apply conj; vm_compute; reflexivity. Qed.

(** ** What persists *)

(** C7, as the code has it. Once both bitmaps of a key are cached no later
    step removes them, and a call whose closure sees the key in [previews]
    does not put it in flight. *)
Theorem cached_bitmaps_persist (h : Home) (evs : list Event)
  (snapshot : gmap string string) (doc : DocumentPreview) :
  ready h (previewKey (url doc) (page doc)) ->
  ready (run h evs) (previewKey (url doc) (page doc))
  /\ (truthy_opt (snapshot !! previewKey (url doc) (page doc)) = true ->
      loadingPreviews (generatePreview_start snapshot doc h)
      = loadingPreviews h)
  /\ (forall B,
        ready (fst (generatePreview (Client B) snapshot doc h))
          (previewKey (url doc) (page doc))).
Proof.
  intros Hready. split; [|split].
  - now apply run_ready.
  - intros Hseen. apply markLoading_known. now right.
  - intros B. rewrite generatePreview_run. now apply run_ready.
Qed.

Lemma cached_bitmaps_persist_witness :
  ready (run previewShown
           (previewEvents offline (previews previewShown) sampleDoc))
    "a.pdf_1".
Proof.
  destruct (cached_bitmaps_persist previewShown
              (previewEvents offline (previews previewShown) sampleDoc)
              (previews previewShown) sampleDoc) as (Hkept & _).
  - vm_compute. split; eauto.
  - exact Hkept.
Defined.

(** C7 fails as stated: the sample page is cached and shown; the next
    question is asked while the network is down, the effect renders the page
    again, the render fails, and the thumbnail of the page turns into the
    error affordance although both bitmaps are still cached. *)
Lemma ready_key_presents_failed :
  thumbnail previewShown sampleDoc
  = PreviewImage "data:image/png;base64,iVBOR1"
  /\ thumbnail
       (askedAgain offline (Throw (ErrorObject "Failed to fetch"))
          previewShown) sampleDoc
     = OpenPdfButton
  /\ previews
       (askedAgain offline (Throw (ErrorObject "Failed to fetch"))
          previewShown) !! "a.pdf_1"
     = Some "data:image/png;base64,iVBOR1".
Proof. repeat apply conj; vm_compute; reflexivity. Qed.

Lemma thumbnail_error (h : Home) (doc : DocumentPreview) :
  thumbnail h doc = OpenPdfButton
  <-> truthy_opt (previewErrors h !! previewKey (url doc) (page doc)) = true.
Proof.
  unfold thumbnail.
  destruct (truthy_opt (previewErrors h !! previewKey (url doc) (page doc))).
  - split; reflexivity.
  - split; [|discriminate].
    destruct (bool_decide
                (previewKey (url doc) (page doc) ∈ loadingPreviews h));
      [discriminate|].
    destruct (previews h !! previewKey (url doc) (page doc)) as [src|];
      [destruct (truthy src)|]; discriminate.
Qed.

(** C9. No step removes an entry of the error map; a later successful
    render of the key writes both bitmap caches and leaves the error map as
    it is, so a thumbnail that showed the error affordance still shows
    it. *)
Theorem previewErrors_never_removed (h : Home) (evs : list Event)
  (doc : DocumentPreview) (small large : Canvas) :
  is_Some (previewErrors h !! previewKey (url doc) (page doc)) ->
  is_Some (previewErrors (run h evs) !! previewKey (url doc) (page doc))
  /\ previews (fst (generatePreview_settle doc (Normal (small, large)) h))
       !! previewKey (url doc) (page doc) = Some (toDataURL small)
  /\ largePreviews (fst (generatePreview_settle doc (Normal (small, large)) h))
       !! previewKey (url doc) (page doc) = Some (toDataURL large)
  /\ previewErrors (fst (generatePreview_settle doc (Normal (small, large)) h))
     = previewErrors h
  /\ (thumbnail h doc = OpenPdfButton ->
      thumbnail (fst (generatePreview_settle doc (Normal (small, large)) h))
        doc = OpenPdfButton).
Proof.
  intros Hfailed. repeat apply conj.
  - now apply run_previewErrors.
  - rewrite generatePreview_settle_success. cbn. apply lookup_insert_eq.
  - rewrite generatePreview_settle_success. cbn. apply lookup_insert_eq.
  - now rewrite generatePreview_settle_success.
  - rewrite !thumbnail_error, generatePreview_settle_success. now cbn.
Qed.

Lemma previewErrors_never_removed_witness :
  thumbnail
    (fst (generatePreview_settle sampleDoc
            (snd (renderPages fivePages sampleDoc)) previewFailed))
    sampleDoc
  = OpenPdfButton.
Proof.
  destruct (previewErrors_never_removed previewFailed [] sampleDoc
              (mkCanvas (612 # 2) (792 # 2) (Some "iVBOR1"))
              (mkCanvas (1836 # 2) (2376 # 2) (Some "iVBOR1")))
    as (_ & _ & _ & _ & Hshown).
  - vm_compute. eauto.
  - apply Hshown. vm_compute. reflexivity.
Defined.

(** The sample page failed while the network was down; asked again once the
    network is back, it is rendered and cached, and its thumbnail is still
    the error affordance. *)
Example error_outlives_success :
  thumbnail (askedAgain fivePages singleReply previewFailed) sampleDoc
  = OpenPdfButton
  /\ largePreviews (askedAgain fivePages singleReply previewFailed)
       !! "a.pdf_1" = Some "data:image/png;base64,iVBOR1".
Proof. split; vm_compute; reflexivity. Qed.

(** * Further properties of the component *)

(** ** Locators and keys *)

Lemma append_assoc3 (a b c : string) : (a +:+ b) +:+ c = a +:+ (b +:+ c).
Proof.
  induction a as [|x a IH]; [reflexivity|].
  change (String x a +:+ b) with (String x (a +:+ b)).
  change (String x (a +:+ b) +:+ c) with (String x ((a +:+ b) +:+ c)).
  change (String x a +:+ (b +:+ c)) with (String x (a +:+ (b +:+ c))).
  now rewrite IH.
Qed.

(** A string is the first piece of its split followed by nothing or by a
    suffix that starts with the separator. *)
Lemma first_split_prefix (sep : ascii) (s : string) :
  exists rest,
    s = first (split sep s) +:+ rest
    /\ contains sep (first (split sep s)) = false
    /\ (rest = "" \/ exists tail, rest = String sep tail).
Proof.
  induction s as [|c s (rest & Hs & Hfree & Hrest)].
  - exists "". repeat split; auto.
  - cbn [split]. destruct (Ascii.eqb c sep) eqn:Hc.
    + apply Ascii.eqb_eq in Hc as ->. exists (String sep s).
      repeat split; eauto.
    + exists rest.
      destruct (split sep s) as [|piece pieces]; unfold first in *;
        cbn [hd] in *.
      * cbn [contains]. rewrite Hc.
        change (String c "" +:+ rest) with (String c ("" +:+ rest)).
        now rewrite <- Hs.
      * cbn [contains]. rewrite Hc, Hfree.
        change (String c piece +:+ rest) with (String c (piece +:+ rest)).
        now rewrite <- Hs.
Qed.

Lemma contains_append (c : ascii) (a b : string) :
  contains c (a +:+ b) = contains c a || contains c b.
Proof.
  induction a as [|x a IH]; [reflexivity|].
  change (String x a +:+ b) with (String x (a +:+ b)).
  cbn [contains]. now rewrite IH, orb_assoc.
Qed.

Lemma cleanUrl_undecorated (u : string) : undecorated (cleanUrl u).
Proof.
  unfold cleanUrl.
  destruct (first_split_prefix "#" u) as (r1 & _ & Hhash & _).
  destruct (first_split_prefix "?" (first (split "#" u)))
    as (r2 & Hsplit & Hquery & _).
  split; [|exact Hquery].
  rewrite Hsplit, contains_append in Hhash.
  now apply orb_false_iff in Hhash as [Hfree _].
Qed.

(** X1. Every locator is its cleaned form followed by a decoration: the
    cleaned form holds neither [#] nor [?], and what was cut off is empty or
    starts with [#] or [?]. *)
Theorem cleanUrl_splits (u : string) :
  exists rest,
    u = cleanUrl u +:+ rest
    /\ undecorated (cleanUrl u)
    /\ decoration rest.
Proof.
  destruct (first_split_prefix "#" u) as (r1 & Hu & _ & Hr1).
  destruct (first_split_prefix "?" (first (split "#" u)))
    as (r2 & Hsplit & _ & Hr2).
  exists (r2 +:+ r1). split; [|split].
  - unfold cleanUrl. rewrite <- append_assoc3, <- Hsplit. exact Hu.
  - apply cleanUrl_undecorated.
  - unfold decoration. destruct Hr2 as [-> | [tail ->]].
    + destruct Hr1 as [-> | [tail ->]]; [now left|].
      right; left. reflexivity.
    + right; right. reflexivity.
Qed.

Lemma contains_pretty_N_go (c : ascii) (x : N) (s : string) :
  (forall d, (d < 10)%N -> Ascii.eqb (pretty_N_char d) c = false) ->
  contains c (pretty_N_go x s) = contains c s.
Proof.
  intros Hdigit. revert s.
  induction (N.lt_wf_0 x) as [x _ IH]; intros s.
  destruct (N.eq_dec x 0%N) as [-> | Hpos]; [now rewrite pretty_N_go_0|].
  rewrite pretty_N_go_step by lia.
  rewrite IH by (apply N.div_lt; lia).
  cbn [contains]. rewrite Hdigit; [reflexivity|].
  apply N.mod_lt. lia.
Qed.

(** The decimal form of a page number holds no underscore. *)
Lemma contains_underscore_pretty (p : Z) : contains "_" (pretty p) = false.
Proof.
  assert (Hdigit : forall d, (d < 10)%N ->
                     Ascii.eqb (pretty_N_char d) "_" = false).
  { intros d Hd.
    assert (d = 0 \/ d = 1 \/ d = 2 \/ d = 3 \/ d = 4 \/ d = 5 \/ d = 6
            \/ d = 7 \/ d = 8 \/ d = 9)%N as Hcases by lia.
    repeat (destruct Hcases as [-> | Hcases]; [reflexivity|]).
    now subst d. }
  assert (HN : forall n : N, contains "_" (pretty n) = false).
  { intros n. unfold pretty, pretty_N.
    destruct (decide (n = 0%N)); [reflexivity|].
    now rewrite contains_pretty_N_go. }
  destruct p as [|q|q]; [reflexivity | apply HN |].
  change (pretty (Z.neg q)) with ("-" +:+ pretty (N.pos q)).
  rewrite contains_append, HN. reflexivity.
Qed.

Lemma underscore_suffix_inj (a b s t : string) :
  contains "_" s = false -> contains "_" t = false ->
  a +:+ String "_" s = b +:+ String "_" t -> a = b /\ s = t.
Proof.
  intros Hs Ht. revert b.
  induction a as [|x a IH]; intros [|y b] Heq.
  - injection Heq as ->. auto.
  - change (String y b +:+ String "_" t)
      with (String y (b +:+ String "_" t)) in Heq.
    injection Heq as <- ->.
    rewrite contains_append in Hs. cbn in Hs.
    now rewrite orb_true_r in Hs.
  - change (String x a +:+ String "_" s)
      with (String x (a +:+ String "_" s)) in Heq.
    injection Heq as -> <-.
    rewrite contains_append in Ht. cbn in Ht.
    now rewrite orb_true_r in Ht.
  - change (String x a +:+ String "_" s)
      with (String x (a +:+ String "_" s)) in Heq.
    change (String y b +:+ String "_" t)
      with (String y (b +:+ String "_" t)) in Heq.
    injection Heq as -> Heq.
    destruct (IH b Heq) as [-> ->]. auto.
Qed.

(** X2. Two preview keys are equal only for the same locator and the same
    page, whatever characters the locators hold: distinct pages of distinct
    documents never share a cache entry. *)
Theorem previewKey_injective (u u' : string) (p p' : Z) :
  previewKey u p = previewKey u' p' <-> u = u' /\ p = p'.
Proof.
  split; [|now intros [-> ->]].
  unfold previewKey. intros Heq.
  change ("_" +:+ pretty p) with (String "_" (pretty p)) in Heq.
  change ("_" +:+ pretty p') with (String "_" (pretty p')) in Heq.
  apply underscore_suffix_inj in Heq as [-> Hpage];
    auto using contains_underscore_pretty.
  split; [reflexivity|]. now apply (inj pretty).
Qed.

(** ** What each step may change *)

Lemma allDocuments_snoc (ms : list Message) (m : Message) :
  allDocuments (ms ++ [m]) = (allDocuments ms ++ default [] (documents m))%list.
Proof.
  unfold allDocuments. rewrite flat_map_app. cbn [flat_map].
  now rewrite app_nil_r.
Qed.

(** A step leaves the message list alone or appends one message, whose
    documents, if any, were built by [assistantDocument]. *)
Lemma step_messages (h : Home) (ev : Event) :
  messages (step h ev) = messages h
  \/ exists m,
       messages (step h ev) = (messages h ++ [m])%list
       /\ (documents m = None
           \/ exists snapshot docs,
                documents m = Some (map (assistantDocument snapshot) docs)).
Proof.
  step_cases h ev; try (now left); right; eexists; split; eauto.
Qed.

Lemma step_effects (h : Home) (ev : Event) :
  effects (step h ev) = effects h
  \/ exists e, effects (step h ev) = (effects h ++ [e])%list.
Proof.
  step_cases h ev; try (now left); right; eexists; reflexivity.
Qed.

(** Only the steps of [generatePreview] write the four preview stores. *)
Lemma step_stores (h : Home) (ev : Event) :
  isPreviewStep ev = false ->
  previews (step h ev) = previews h
  /\ largePreviews (step h ev) = largePreviews h
  /\ loadingPreviews (step h ev) = loadingPreviews h
  /\ previewErrors (step h ev) = previewErrors h.
Proof.
  intros Hother. step_cases h ev; try discriminate Hother; auto.
Qed.

(** The steps of [generatePreview] write nothing but the preview stores. *)
Lemma step_cells (h : Home) (ev : Event) :
  isPreviewStep ev = true ->
  messages (step h ev) = messages h
  /\ input (step h ev) = input h
  /\ isLoading (step h ev) = isLoading h
  /\ selectedPreview (step h ev) = selectedPreview h.
Proof.
  intros Hpreview. step_cases h ev; try discriminate Hpreview; auto.
Qed.

Lemma run_cells (evs : list Event) (h : Home) :
  forallb isPreviewStep evs = true ->
  messages (run h evs) = messages h
  /\ input (run h evs) = input h
  /\ isLoading (run h evs) = isLoading h
  /\ selectedPreview (run h evs) = selectedPreview h.
Proof.
  revert h. induction evs as [|ev evs IH]; intros h Hall; [auto|].
  cbn [forallb] in Hall. apply andb_true_iff in Hall as [Hev Hall].
  cbn [run fold_left]. fold (run (step h ev) evs).
  destruct (IH (step h ev) Hall) as (-> & -> & -> & ->).
  now apply step_cells.
Qed.

Lemma previewEvents_steps (B : Browser) (snapshot : gmap string string)
  (docs : list DocumentPreview) :
  forallb isPreviewStep (flat_map (previewEvents B snapshot) docs) = true.
Proof. induction docs as [|doc docs IH]; [reflexivity | exact IH]. Qed.

Lemma step_messagesClean (h : Home) (ev : Event) :
  messagesClean h -> messagesClean (step h ev).
Proof.
  unfold messagesClean. intros Hclean d.
  destruct (step_messages h ev) as [-> | (m & -> & Hm)]; [apply Hclean|].
  rewrite allDocuments_snoc, in_app_iff. intros [Hold | Hnew]; [auto|].
  destruct Hm as [Hnone | (snapshot & docs & Hdocs)].
  - rewrite Hnone in Hnew. destruct Hnew.
  - rewrite Hdocs in Hnew. cbn [default] in Hnew.
    apply in_map_iff in Hnew as (c & <- & _). apply cleanUrl_idempotent.
Qed.

(** Only a click on a preview and the closing of the modal write the
    selected preview. *)
Lemma step_selectedPreview (h : Home) (ev : Event) :
  match ev with
  | PreviewClicked _ | ModalClosed => True
  | _ => selectedPreview (step h ev) = selectedPreview h
  end.
Proof. step_cases h ev; auto. Qed.

Lemma step_modalHasImage (h : Home) (ev : Event) :
  modalHasImage h -> modalHasImage (step h ev).
Proof.
  unfold modalHasImage. intros Hmodal d.
  pose proof (step_selectedPreview h ev) as Hsame.
  destruct ev as [s | | snapshot reply | snapshot doc
                 | doc rendered | doc | doc | ];
    try (rewrite Hsame; apply Hmodal).
  - cbn [step]. unfold handlePreviewClick.
    destruct (selectForModal h doc) as [src|] eqn:Hselect; [|apply Hmodal].
    cbn. intros [= <-]. cbn. split; [apply cleanUrl_idempotent|].
    exists src. split; [reflexivity|].
    unfold selectForModal in Hselect.
    destruct (largePreviews h !! previewKey (cleanUrl (url doc)) (page doc))
      as [v|]; [|discriminate].
    destruct (truthy v) eqn:Hv; [|discriminate]. now injection Hselect as <-.
  - cbn. discriminate.
Qed.

Lemma step_inFlightRequested (h : Home) (ev : Event) :
  inFlightRequested h -> inFlightRequested (step h ev).
Proof.
  unfold inFlightRequested. intros Hflight key Hkey.
  assert (Hold : key ∈ loadingPreviews h ->
                 exists u p, key = previewKey u p
                   /\ (1 <= rendererInvocations u p (step h ev))%nat).
  { intros Hin. destruct (Hflight key Hin) as (u & p & -> & Hcount).
    exists u, p. split; [reflexivity|].
    rewrite step_rendererInvocations. lia. }
  destruct (isPreviewStep ev) eqn:Hkind.
  - destruct ev as [s | | snapshot reply | snapshot doc
                   | doc [[small large]|e] | doc | doc | ];
      try discriminate Hkind.
    + destruct (decide (key = previewKey (url doc) (page doc))) as [-> | Hne].
      * exists (url doc), (page doc). split; [reflexivity|].
        rewrite step_rendererInvocations. cbn [isStartFor].
        rewrite !bool_decide_eq_true_2 by reflexivity. cbn. lia.
      * apply Hold. cbn in Hkey. unfold markLoading in Hkey.
        destruct (bool_decide (previewKey (url doc) (page doc)
                               ∈ loadingPreviews h)
                  || truthy_opt (snapshot
                                   !! previewKey (url doc) (page doc)));
          [assumption|].
        apply elem_of_union in Hkey as [Hnew%elem_of_singleton | Hin];
          [contradiction | assumption].
    + apply Hold. cbn [step] in Hkey.
      rewrite generatePreview_settle_success in Hkey. cbn in Hkey.
      now apply elem_of_difference in Hkey as [Hin _].
    + apply Hold. cbn [step] in Hkey.
      rewrite generatePreview_settle_failure in Hkey. cbn in Hkey.
      now apply elem_of_difference in Hkey as [Hin _].
  - apply Hold. destruct (step_stores h ev Hkind) as (_ & _ & Hsame & _).
    now rewrite Hsame in Hkey.
Qed.

(** ** Invariants of every run *)

Lemma reachable_step (h : Home) (ev : Event) :
  reachable h -> reachable (step h ev).
Proof.
  intros [evs ->]. exists (evs ++ [ev])%list. now rewrite run_app.
Qed.

Lemma reachable_invariant (P : Home -> Prop) :
  P initialHome -> (forall h ev, P h -> P (step h ev)) ->
  forall h, reachable h -> P h.
Proof.
  intros Hinit Hstep h [evs ->].
  induction evs as [|ev evs IH] using rev_ind; [exact Hinit|].
  rewrite run_app. apply Hstep, IH.
Qed.

(** X3. In every reachable state the documents of the message list have
    cleaned locators, so the key that [handlePreviewClick] looks up is the
    key that [generatePreview] writes and the thumbnail reads. *)
Theorem message_keys_agree (h : Home) (d : DocumentPreview) :
  reachable h ->
  In d (allDocuments (messages h)) ->
  cleanUrl (url d) = url d
  /\ previewKey (cleanUrl (url d)) (page d) = previewKey (url d) (page d).
Proof.
  intros Hreach Hin.
  assert (Hall : messagesClean h)
    by (apply (reachable_invariant messagesClean);
        [intros d' [] | apply step_messagesClean | assumption]).
  now rewrite (Hall d Hin).
Qed.

Lemma message_keys_agree_witness :
  cleanUrl (url citedTwice) = url citedTwice
  /\ previewKey (cleanUrl (url citedTwice)) (page citedTwice)
     = previewKey (url citedTwice) (page citedTwice).
Proof.
  apply (message_keys_agree (answered sampleReply) citedTwice).
  - exists [Typed "q"; SubmitSent; SubmitAnswered ∅ sampleReply].
    vm_compute. reflexivity.
  - left. reflexivity.
Defined.

(** X4. No step removes or rewrites a message or a logged effect: after any
    run the message list and the effect log start with what they were. *)
Theorem run_appends (h : Home) (evs : list Event) :
  messages h `prefix_of` messages (run h evs)
  /\ effects h `prefix_of` effects (run h evs).
Proof.
  revert h. induction evs as [|ev evs IH]; intros h; [split; reflexivity|].
  cbn [run fold_left]. fold (run (step h ev) evs).
  destruct (IH (step h ev)) as [Hm He]. split.
  - etransitivity; [|exact Hm].
    destruct (step_messages h ev) as [-> | (m & -> & _)];
      [reflexivity | now apply prefix_app_r].
  - etransitivity; [|exact He].
    destruct (step_effects h ev) as [-> | (e & ->)];
      [reflexivity | now apply prefix_app_r].
Qed.

(** X5. In every reachable state the preview selected for the modal, if
    there is one, carries a large bitmap that is not empty, and a cleaned
    locator: the modal never shows an image without a source. *)
Theorem modal_has_image (h : Home) (d : DocumentPreview) :
  reachable h ->
  selectedPreview h = Some d ->
  cleanUrl (url d) = url d
  /\ exists src, largePreviewUrl d = Some src /\ truthy src = true.
Proof.
  intros Hreach. revert d. change (modalHasImage h).
  apply (reachable_invariant modalHasImage);
    [intros d; discriminate | apply step_modalHasImage | assumption].
Qed.

Lemma modal_has_image_witness :
  exists src,
    largePreviewUrl
      (mkDocumentPreview "a.pdf" 1 "A" None
         (Some "data:image/png;base64,iVBOR1") None None) = Some src
    /\ truthy src = true.
Proof.
  apply (modal_has_image
           (run initialHome
              [PreviewStarted ∅ sampleDoc;
               PreviewSettled sampleDoc (snd (renderPages fivePages sampleDoc));
               PreviewClicked sampleDoc])).
  - eexists. reflexivity.
  - vm_compute. reflexivity.
Defined.

Lemma thumbnail_image (h : Home) (doc : DocumentPreview) (src : string) :
  thumbnail h doc = PreviewImage src ->
  previews h !! previewKey (url doc) (page doc) = Some src.
Proof.
  unfold thumbnail.
  destruct (truthy_opt (previewErrors h !! previewKey (url doc) (page doc)));
    [discriminate|].
  destruct (bool_decide (previewKey (url doc) (page doc) ∈ loadingPreviews h));
    [discriminate|].
  destruct (previews h !! previewKey (url doc) (page doc)) as [v|];
    [|discriminate].
  destruct (truthy v); [|discriminate]. now intros [= ->].
Qed.

(** X6. In every reachable state, when the thumbnail of a document of the
    message list shows a preview image, the image is the cached small bitmap
    and a click on its preview button opens the modal with the cached large
    bitmap of the same page. *)
Theorem shown_preview_opens (h : Home) (doc : DocumentPreview)
  (src : string) :
  reachable h ->
  In doc (allDocuments (messages h)) ->
  thumbnail h doc = PreviewImage src ->
  previews h !! previewKey (url doc) (page doc) = Some src
  /\ exists large,
       largePreviews h !! previewKey (url doc) (page doc) = Some large
       /\ selectedPreview (handlePreviewClick doc h)
          = Some (mkDocumentPreview (url doc) (page doc) (title doc)
                    (previewUrl doc) (Some large) (doc_isLoading doc)
                    (error doc)).
Proof.
  intros Hreach Hin Hshown.
  assert (Hall : messagesClean h)
    by (apply (reachable_invariant messagesClean);
        [intros d [] | apply step_messagesClean | assumption]).
  pose proof (Hall doc Hin) as Hclean.
  apply thumbnail_image in Hshown. split; [assumption|].
  destruct (reachable_cachesAgree h Hreach (previewKey (url doc) (page doc)))
    as (Hdom & _ & Htruthy).
  destruct (proj1 Hdom (ex_intro _ src Hshown)) as [large Hlarge].
  exists large. split; [assumption|].
  unfold handlePreviewClick, selectForModal. rewrite Hclean, Hlarge.
  now rewrite (Htruthy large Hlarge).
Qed.

Lemma shown_preview_opens_witness :
  exists large,
    largePreviews previewShown !! "a.pdf_1" = Some large
    /\ selectedPreview (handlePreviewClick sampleDoc previewShown)
       = Some (mkDocumentPreview "a.pdf" 1 "A" None (Some large) None None).
Proof.
  destruct (shown_preview_opens previewShown sampleDoc
              "data:image/png;base64,iVBOR1") as [_ Hopens].
  - exists [Typed "q"; SubmitSent; SubmitAnswered ∅ singleReply;
            PreviewStarted ∅ sampleDoc;
            PreviewSettled sampleDoc (snd (renderPages fivePages sampleDoc))].
    vm_compute. reflexivity.
  - left. reflexivity.
  - vm_compute. reflexivity.
  - exact Hopens.
Defined.

(** X7. When no preview is selected, opening the modal by a click on a
    preview and closing it again gives back the state of before, whether or
    not the click found a bitmap. *)
Theorem open_then_close (h : Home) (doc : DocumentPreview) :
  selectedPreview h = None ->
  step (step h (PreviewClicked doc)) ModalClosed = h.
Proof.
  intros Hnone. cbn [step]. unfold handlePreviewClick.
  destruct (selectForModal h doc); destruct h; cbn in *; now subst.
Qed.

Lemma open_then_close_witness :
  step (step previewShown (PreviewClicked sampleDoc)) ModalClosed
  = previewShown.
Proof.
  apply (open_then_close previewShown sampleDoc). vm_compute. reflexivity.
Defined.

(** X8. In every reachable state a key is in flight only if the renderer
    has been invoked for its locator and page: no spinner without a render
    request. *)
Theorem in_flight_was_requested (h : Home) (key : string) :
  reachable h ->
  key ∈ loadingPreviews h ->
  exists u p, key = previewKey u p /\ (1 <= rendererInvocations u p h)%nat.
Proof.
  intros Hreach. revert key. change (inFlightRequested h).
  apply (reachable_invariant inFlightRequested);
    [|apply step_inFlightRequested | assumption].
  intros key Hin. cbn in Hin. now apply not_elem_of_empty in Hin.
Qed.

Lemma in_flight_was_requested_witness :
  exists u p,
    "a.pdf_1" = previewKey u p
    /\ (1 <= rendererInvocations u p
               (run initialHome [PreviewStarted ∅ sampleDoc]))%nat.
Proof.
  apply (in_flight_was_requested
           (run initialHome [PreviewStarted ∅ sampleDoc]) "a.pdf_1").
  - eexists. reflexivity.
  - apply (bool_decide_unpack _). vm_compute. exact I.
Defined.

(** ** Who writes what *)

(** X9. Typing, submitting, the answer of the backend, the clicks and the
    closing of the modal never write the four preview stores: after a run
    without a step of [generatePreview] the stores are what they were. *)
Theorem handlers_keep_stores (h : Home) (evs : list Event) :
  forallb (fun ev => negb (isPreviewStep ev)) evs = true ->
  previews (run h evs) = previews h
  /\ largePreviews (run h evs) = largePreviews h
  /\ loadingPreviews (run h evs) = loadingPreviews h
  /\ previewErrors (run h evs) = previewErrors h.
Proof.
  revert h. induction evs as [|ev evs IH]; intros h Hall; [auto|].
  cbn [forallb] in Hall. apply andb_true_iff in Hall as [Hev Hall].
  apply negb_true_iff in Hev.
  cbn [run fold_left]. fold (run (step h ev) evs).
  destruct (IH (step h ev) Hall) as (-> & -> & -> & ->).
  now apply step_stores.
Qed.

Lemma handlers_keep_stores_witness :
  previews (run previewShown
              [Typed "again"; SubmitSent; SubmitAnswered ∅ sampleReply;
               PreviewClicked sampleDoc; DocumentClicked sampleDoc;
               ModalClosed])
  = previews previewShown.
Proof.
  destruct (handlers_keep_stores previewShown
              [Typed "again"; SubmitSent; SubmitAnswered ∅ sampleReply;
               PreviewClicked sampleDoc; DocumentClicked sampleDoc;
               ModalClosed]) as [Hsame _].
  - reflexivity.
  - exact Hsame.
Defined.

(** X10. The effect writes nothing but the preview stores: in every
    environment it leaves the message list, on which it depends, the input,
    the loading flag and the selected preview as they were, and so does not
    trigger itself. *)
Theorem useEffect_keeps_messages (env : Env) (h : Home) :
  messages (fst (useEffect env h)) = messages h
  /\ input (fst (useEffect env h)) = input h
  /\ isLoading (fst (useEffect env h)) = isLoading h
  /\ selectedPreview (fst (useEffect env h)) = selectedPreview h.
Proof.
  destruct env as [|B|e].
  - now rewrite useEffect_without_pdfjs.
  - rewrite useEffect_run. cbn [fst].
    apply run_cells, previewEvents_steps.
  - now rewrite useEffect_without_pdfjs.
Qed.

(** X11. Without pdf.js, on the server or when its import is rejected, the
    effect changes nothing at all: no store is written and the renderer is
    not invoked, whatever the messages cite. *)
Theorem useEffect_needs_pdfjs (env : Env) (h : Home) :
  (forall B, env <> Client B) ->
  fst (useEffect env h) = h
  /\ forall snapshot doc, fst (generatePreview env snapshot doc h) = h.
Proof.
  intros Hnone. split.
  - now rewrite useEffect_without_pdfjs.
  - intros snapshot doc. now apply generatePreview_without_pdfjs.
Qed.

Lemma useEffect_needs_pdfjs_witness :
  fst (useEffect Server (answered sampleReply)) = answered sampleReply.
Proof.
  destruct (useEffect_needs_pdfjs Server (answered sampleReply))
    as [Hsame _].
  - intros B. discriminate.
  - exact Hsame.
Defined.

Lemma sameAt_refl (key : string) (h : Home) : sameAt key h h.
Proof. unfold sameAt. tauto. Qed.

Lemma sameAt_trans (key : string) (h1 h2 h3 : Home) :
  sameAt key h1 h2 -> sameAt key h2 h3 -> sameAt key h1 h3.
Proof.
  unfold sameAt. intros (-> & -> & -> & Ha) (-> & -> & -> & Hb).
  repeat split; try tauto; intros; tauto.
Qed.

Lemma generatePreview_start_sameAt (snapshot : gmap string string)
  (doc : DocumentPreview) (h : Home) (key : string) :
  key <> previewKey (url doc) (page doc) ->
  sameAt key h (generatePreview_start snapshot doc h).
Proof.
  intros Hne. unfold sameAt, generatePreview_start. cbn.
  repeat split; auto; unfold markLoading;
    destruct (bool_decide (previewKey (url doc) (page doc)
                           ∈ loadingPreviews h)
              || truthy_opt (snapshot !! previewKey (url doc) (page doc)));
    auto; rewrite elem_of_union, elem_of_singleton; tauto.
Qed.

Lemma generatePreview_settle_sameAt (doc : DocumentPreview)
  (rendered : Completion (Canvas * Canvas)) (h : Home) (key : string) :
  key <> previewKey (url doc) (page doc) ->
  sameAt key h (fst (generatePreview_settle doc rendered h)).
Proof.
  intros Hne. unfold sameAt. destruct rendered as [[small large]|e].
  - rewrite generatePreview_settle_success. cbn.
    rewrite !lookup_insert_ne by auto.
    rewrite elem_of_difference, elem_of_singleton. tauto.
  - rewrite generatePreview_settle_failure. cbn.
    rewrite !lookup_insert_ne by auto.
    rewrite elem_of_difference, elem_of_singleton. tauto.
Qed.

(** X12. A [generatePreview] call touches the entries of its own key only:
    for every other key the two bitmap caches, the error map and the
    in-flight set hold after the start of the call, after its end and after
    the whole call what they held before. *)
Theorem generatePreview_other_keys (env : Env)
  (snapshot : gmap string string) (doc : DocumentPreview)
  (rendered : Completion (Canvas * Canvas)) (h : Home) (key : string) :
  key <> previewKey (url doc) (page doc) ->
  sameAt key h (generatePreview_start snapshot doc h)
  /\ sameAt key h (fst (generatePreview_settle doc rendered h))
  /\ sameAt key h (fst (generatePreview env snapshot doc h)).
Proof.
  intros Hne. split; [|split].
  - now apply generatePreview_start_sameAt.
  - now apply generatePreview_settle_sameAt.
  - destruct env as [|B|e]; try apply sameAt_refl.
    unfold generatePreview. cbn [configurePdfjs].
    eapply sameAt_trans.
    + apply generatePreview_start_sameAt, Hne.
    + apply generatePreview_settle_sameAt, Hne.
Qed.

Lemma generatePreview_other_keys_witness :
  sameAt "a.pdf_1" previewShown
    (fst (generatePreview (Client offline) ∅ citedTwice previewShown)).
Proof.
  destruct (generatePreview_other_keys (Client offline) ∅ citedTwice
              (Throw OtherValue) previewShown "a.pdf_1") as (_ & _ & Hsame).
  - vm_compute. discriminate.
  - exact Hsame.
Defined.

Lemma markLoading_then_clear (snapshot : gmap string string) (key : string)
  (prev : gset string) :
  markLoading snapshot key prev ∖ {[key]} = prev ∖ {[key]}.
Proof.
  unfold markLoading.
  destruct (bool_decide (key ∈ prev) || truthy_opt (snapshot !! key));
    [reflexivity|].
  apply set_eq. intros k.
  rewrite !elem_of_difference, elem_of_union, elem_of_singleton. tauto.
Qed.

Lemma run_previewEvents_loading (B : Browser) (snapshot : gmap string string)
  (doc : DocumentPreview) (h : Home) :
  loadingPreviews (run h (previewEvents B snapshot doc))
  = loadingPreviews h ∖ {[previewKey (url doc) (page doc)]}.
Proof.
  unfold previewEvents. cbn [run fold_left step].
  destruct (snd (renderPages B doc)) as [[small large]|e].
  - rewrite generatePreview_settle_success. cbn.
    apply markLoading_then_clear.
  - rewrite generatePreview_settle_failure. cbn.
    apply markLoading_then_clear.
Qed.

(** X13. The [finally] block clears the in-flight mark of the key whatever
    the render gave, also when another call for the same key is still
    running; after a whole call in the browser the in-flight set is the
    former one without the key. *)
Theorem settle_clears_in_flight (doc : DocumentPreview)
  (rendered : Completion (Canvas * Canvas)) (h : Home) :
  (previewKey (url doc) (page doc)
   ∉ loadingPreviews (fst (generatePreview_settle doc rendered h)))
  /\ forall B snapshot,
       loadingPreviews (fst (generatePreview (Client B) snapshot doc h))
       = loadingPreviews h ∖ {[previewKey (url doc) (page doc)]}.
Proof.
  split.
  - destruct rendered as [[small large]|e];
      [rewrite generatePreview_settle_success
      | rewrite generatePreview_settle_failure];
      cbn; rewrite elem_of_difference, elem_of_singleton; tauto.
  - intros B snapshot. rewrite generatePreview_run. cbn [fst].
    apply run_previewEvents_loading.
Qed.

Lemma run_effect_loading (B : Browser) (snapshot : gmap string string)
  (docs : list DocumentPreview) (h : Home) :
  loadingPreviews (run h (flat_map (previewEvents B snapshot) docs))
  = loadingPreviews h ∖ keysOf docs.
Proof.
  revert h. induction docs as [|doc docs IH]; intros h.
  - cbn. apply set_eq. intros k.
    rewrite elem_of_difference, elem_of_empty. tauto.
  - cbn [flat_map]. rewrite run_app, IH, run_previewEvents_loading.
    unfold keysOf. cbn [map list_to_set]. apply set_eq. intros k.
    rewrite !elem_of_difference, elem_of_union. tauto.
Qed.

(** X14. Once every call of a run of the effect has ended, no page cited in
    the message list is in flight: the in-flight set is the former one
    without the keys of the cited pages, and no thumbnail of a cited page is
    the spinner. *)
Theorem useEffect_leaves_none_in_flight (B : Browser) (h : Home) :
  loadingPreviews (fst (useEffect (Client B) h))
  = loadingPreviews h ∖ keysOf (allDocuments (messages h))
  /\ forall doc,
       In doc (allDocuments (messages h)) ->
       thumbnail (fst (useEffect (Client B) h)) doc <> Spinner.
Proof.
  assert (Hloading : loadingPreviews (fst (useEffect (Client B) h))
                     = loadingPreviews h ∖ keysOf (allDocuments (messages h))).
  { rewrite useEffect_run. cbn [fst]. apply run_effect_loading. }
  split; [exact Hloading|].
  intros doc Hin. unfold thumbnail. rewrite Hloading.
  assert (Hkey : previewKey (url doc) (page doc)
                 ∈ keysOf (allDocuments (messages h))).
  { unfold keysOf. apply elem_of_list_to_set, list_elem_of_In.
    apply in_map_iff. now exists doc. }
  rewrite bool_decide_eq_false_2
    by (rewrite elem_of_difference; tauto).
  destruct (truthy_opt _); [discriminate|].
  destruct (previews _ !! _) as [v|]; [destruct (truthy v)|]; discriminate.
Qed.

(** ** Submitting *)

(** What an answered submission appends to the message list. *)
Lemma handleSubmit_answer_outcome (snapshot : gmap string string)
  (reply : Completion ChatResponse) (h : Home) :
  exists answer,
    handleSubmit_answer snapshot reply h
    = (setInput ""
         (setIsLoading false
            (setMessages (fun prev => prev ++ [answer])%list h)), Normal tt)
    /\ role answer = assistant
    /\ match reply with
       | Normal data =>
           match r_documents data with
           | Some docs =>
               if truthy (text data)
               then answer
                    = mkMessage assistant (text data)
                        (Some (map (assistantDocument snapshot) docs))
               else answer = mkMessage assistant genericFailure None
           | None => answer = mkMessage assistant genericFailure None
           end
       | Throw e => answer = mkMessage assistant (errorMessageFor e) None
       end.
Proof.
  unfold handleSubmit_answer, tryCatchFinally, andThen, update.
  destruct reply as [[t i x [docs|]]|e]; cbn [r_documents text];
    [destruct (truthy t) | | ]; eexists; repeat split; reflexivity.
Qed.

(** X15. A submission whose input is not blank never throws and, whatever
    the backend answers, appends exactly two messages, the question and one
    assistant message, posts one query carrying the input, ends with the
    loading flag down and the input empty, and leaves the preview stores and
    the selected preview alone. A valid answer is appended with its text and
    one document per citation, in order and with cleaned locators; anything
    else is appended as an error text without documents. *)
Theorem handleSubmit_appends (reply : Completion ChatResponse) (h : Home) :
  all_white_space (input h) = false ->
  exists answer,
    handleSubmit reply h
    = (mkHome (messages h ++ [mkMessage user (input h) None; answer]) ""
         false (previews h) (largePreviews h) (loadingPreviews h)
         (previewErrors h) (selectedPreview h)
         (effects h ++ [QueryPosted (input h)]), Normal tt)
    /\ role answer = assistant
    /\ (forall data docs,
          reply = Normal data -> r_documents data = Some docs ->
          truthy (text data) = true ->
          answer = mkMessage assistant (text data)
                     (Some (map (assistantDocument (previews h)) docs)))
    /\ (forall e,
          reply = Throw e ->
          answer = mkMessage assistant (errorMessageFor e) None).
Proof.
  intros Hinput.
  assert (Hguard : negb (truthy (trim (input h))) = false).
  { destruct (trim (input h)) eqn:Htrim; [|reflexivity].
    apply trim_empty_iff in Htrim. congruence. }
  unfold handleSubmit. rewrite Hguard.
  destruct (handleSubmit_answer_outcome (previews h) reply
              (handleSubmit_send h)) as (answer & -> & Hrole & Hcases).
  exists answer. split; [|split; [exact Hrole|split]].
  - unfold handleSubmit_send, setInput, setIsLoading, setMessages, emit.
    cbn. now rewrite <- app_assoc.
  - intros data docs -> Hdocs Htext. now rewrite Hdocs, Htext in Hcases.
  - now intros e ->.
Qed.

Lemma handleSubmit_appends_witness :
  exists answer,
    handleSubmit sampleReply (setInput "q" initialHome)
    = (mkHome [mkMessage user "q" None; answer] "" false ∅ ∅ ∅ ∅ None
         [QueryPosted "q"], Normal tt).
Proof.
  destruct (handleSubmit_appends sampleReply (setInput "q" initialHome))
    as (answer & Hrun & _).
  - reflexivity.
  - exists answer. exact Hrun.
Defined.

(** X16. An answer of the backend whose text is empty or whose documents
    are not an array is shown as the generic apology, without documents:
    the format error that line 179 throws selects none of the specific
    messages of the catch block. *)
Theorem invalid_reply_apology (snapshot : gmap string string)
  (data : ChatResponse) (h : Home) :
  truthy (text data) = false \/ r_documents data = None ->
  messages (fst (handleSubmit_answer snapshot (Normal data) h))
  = (messages h ++ [mkMessage assistant genericFailure None])%list
  /\ errorMessageFor (ErrorObject invalidFormat) = genericFailure.
Proof.
  intros Hinvalid.
  destruct (handleSubmit_answer_outcome snapshot (Normal data) h)
    as (answer & -> & _ & Hcases).
  split; [|vm_compute; reflexivity]. cbn.
  destruct (r_documents data) as [docs|]; [|now rewrite Hcases].
  destruct Hinvalid as [Htext | Hnone]; [|discriminate].
  rewrite Htext in Hcases. now rewrite Hcases.
Qed.

Lemma invalid_reply_apology_witness :
  messages (fst (handleSubmit_answer ∅
                   (Normal (mkChatResponse "" [] [] (Some []))) initialHome))
  = [mkMessage assistant genericFailure None].
Proof.
  destruct (invalid_reply_apology ∅ (mkChatResponse "" [] [] (Some []))
              initialHome) as [Hshown _].
  - left. reflexivity.
  - exact Hshown.
Defined.

(** X17. The submit button is disabled for exactly the inputs that
    [handleSubmit] ignores: the handler returns the state unchanged if and
    only if the trimmed input is empty, that is if and only if every
    character of the input is white space. *)
Theorem submitDisabled_iff_ignored (reply : Completion ChatResponse)
  (h : Home) :
  (handleSubmit reply h = (h, Normal tt) <-> submitDisabled h = true)
  /\ (submitDisabled h = true <-> all_white_space (input h) = true).
Proof.
  assert (Hblank : submitDisabled h = true
                   <-> all_white_space (input h) = true).
  { unfold submitDisabled. rewrite <- trim_empty_iff.
    destruct (trim (input h)); cbn; split; congruence. }
  split; [|exact Hblank]. split.
  - intros Hsame. destruct (submitDisabled h) eqn:Hdisabled; [reflexivity|].
    exfalso. unfold handleSubmit in Hsame.
    unfold submitDisabled in Hdisabled. rewrite Hdisabled in Hsame.
    destruct (handleSubmit_answer_outcome (previews h) reply
                (handleSubmit_send h)) as (answer & Hrun & _).
    rewrite Hrun in Hsame. apply (f_equal (fun r => length (messages (fst r))))
      in Hsame.
    cbn in Hsame. rewrite !length_app in Hsame. cbn in Hsame. lia.
  - intros Hdisabled. unfold handleSubmit.
    unfold submitDisabled in Hdisabled. now rewrite Hdisabled.
Qed.

(** ** Opening a document *)

(** X18. [handleDocumentClick] opens one window and changes nothing else.
    The address is the locator cut at its first [?], followed by [#page=]
    and the page number; for a locator that is already cleaned, as those of
    the message list and of the modal are, it is the locator itself followed
    by [#page=] and the page number. *)
Theorem handleDocumentClick_opens (doc : DocumentPreview) (h : Home) :
  (exists base rest,
      url doc = base +:+ rest
      /\ contains "?" base = false
      /\ (rest = "" \/ exists tail, rest = String "?" tail)
      /\ handleDocumentClick doc h
         = emit (WindowOpened (base +:+ "#page=" +:+ pretty (page doc))) h)
  /\ (cleanUrl (url doc) = url doc ->
      handleDocumentClick doc h
      = emit (WindowOpened (url doc +:+ "#page=" +:+ pretty (page doc))) h)
  /\ (reachable h ->
      In doc (allDocuments (messages h)) \/ selectedPreview h = Some doc ->
      handleDocumentClick doc h
      = emit (WindowOpened (url doc +:+ "#page=" +:+ pretty (page doc))) h).
Proof.
  assert (Hclean : cleanUrl (url doc) = url doc ->
            handleDocumentClick doc h
            = emit (WindowOpened (url doc +:+ "#page=" +:+ pretty (page doc)))
                h).
  { intros Hfixed. unfold handleDocumentClick.
    destruct (cleanUrl_undecorated (url doc)) as [_ Hquery].
    rewrite Hfixed in Hquery. now rewrite Hquery. }
  split; [|split; [exact Hclean|]].
  - destruct (first_split_prefix "?" (url doc)) as (rest & Hu & Hfree & Hrest).
    exists (first (split "?" (url doc))), rest.
    repeat split; auto. unfold handleDocumentClick.
    destruct (contains "?" (url doc)) eqn:Hquery; [reflexivity|].
    now rewrite first_split_free.
  - intros Hreach [Hin | Hselected]; apply Hclean.
    + assert (Hall : messagesClean h)
        by (apply (reachable_invariant messagesClean);
            [intros d [] | apply step_messagesClean | assumption]).
      now apply Hall.
    + assert (Hmodal : modalHasImage h)
        by (apply (reachable_invariant modalHasImage);
            [intros d; discriminate | apply step_modalHasImage | assumption]).
      now apply Hmodal.
Qed.

(** A query is cut off and a fragment in front of it is kept. *)
Example handleDocumentClick_samples :
  effects (handleDocumentClick
             (mkDocumentPreview "a.pdf?v=2#x" 3 "A" None None None None)
             initialHome)
  = [WindowOpened "a.pdf#page=3"]
  /\ effects (handleDocumentClick
                (mkDocumentPreview "a.pdf#x?v=2" 3 "A" None None None None)
                initialHome)
     = [WindowOpened "a.pdf#x#page=3"].
Proof. split; reflexivity. Qed.

(** ** The order of the engine calls *)

(** X19. The render pipeline calls the engine in one fixed order and stops
    at the first failure: its calls are always a prefix of opening the
    document, fetching the page, rendering at 0.5 and rendering at 1.5; a
    run with fewer than four calls has thrown; and the large render is only
    requested once the small render has succeeded and both canvases gave a
    drawing surface. *)
Theorem renderPages_calls_in_order (B : Browser) (doc : DocumentPreview) :
  fst (renderPages B doc) `prefix_of` allCalls doc
  /\ ((length (fst (renderPages B doc)) < 4)%nat ->
      exists e, snd (renderPages B doc) = Throw e)
  /\ (In (CallRender (3 # 2)) (fst (renderPages B doc)) ->
      exists pg smallImage,
        (exists pdf, getDocument B (url doc) = Normal pdf
                     /\ getPage B pdf (page doc) = Normal pg)
        /\ getContext B 0%nat (createCanvas (getViewport B pg (1 # 2))) = true
        /\ render B pg (getViewport B pg (1 # 2)) = Normal smallImage
        /\ getContext B 1%nat (createCanvas (getViewport B pg (3 # 2)))
           = true).
Proof.
  unfold allCalls.
  pipeline_cases B doc; rewrite ?scale_getViewport;
    (split; [eexists; cbn; reflexivity|]);
    (split;
     [intros Hshort; cbn in Hshort; try lia; eauto
     |intros Hin; cbn in Hin;
      repeat (destruct Hin as [Hin | Hin]; try discriminate Hin);
      try contradiction; eauto 10]).
Qed.

(** ** From the answer to the cache *)

Lemma handleSubmit_guard_open (h : Home) :
  all_white_space (input h) = false ->
  negb (truthy (trim (input h))) = false.
Proof.
  intros Hinput. destruct (trim (input h)) eqn:Htrim; [|reflexivity].
  apply trim_empty_iff in Htrim. congruence.
Qed.

(** X20. After a submission that is not blank has been answered with a text
    and citations, and the effect has run in the browser, every citation of
    the answer whose render succeeds has both bitmaps cached under its
    derived key. *)
Theorem answered_citations_cached (B : Browser) (data : ChatResponse)
  (docs : list ResponseDocument) (c : ResponseDocument) (pg : PDFPageProxy)
  (smallImage largeImage : string) (h : Home) :
  all_white_space (input h) = false ->
  r_documents data = Some docs ->
  truthy (text data) = true ->
  In c docs ->
  pipelineSucceeds B (assistantDocument (previews h) c) pg smallImage
    largeImage ->
  ready (fst (useEffect (Client B) (fst (handleSubmit (Normal data) h))))
    (deriveKey c).
Proof.
  intros Hinput Hdocs Htext Hin Hok.
  rewrite <- (assistantDocument_key (previews h) c).
  eapply useEffect_ready; [|exact Hok].
  unfold handleSubmit. rewrite handleSubmit_guard_open by assumption.
  destruct (handleSubmit_answer_outcome (previews h) (Normal data)
              (handleSubmit_send h)) as (answer & -> & _ & Hanswer).
  rewrite Hdocs, Htext in Hanswer. subst answer.
  unfold handleSubmit_send, setInput, setIsLoading, setMessages, emit. cbn.
  rewrite !allDocuments_snoc. cbn [documents default].
  apply in_or_app. right. now apply in_map.
Qed.

Lemma answered_citations_cached_witness :
  ready (fst (useEffect (Client fivePages)
                (fst (handleSubmit sampleReply (setInput "q" initialHome)))))
    (deriveKey (mkResponseDocument "Doc" "https://x/doc.pdf?v=2" 3)).
Proof.
  apply (answered_citations_cached fivePages
           (mkChatResponse "See page 3." [] []
              (Some [mkResponseDocument "Doc" "https://x/doc.pdf?v=2" 3;
                     mkResponseDocument "Doc" "https://x/doc.pdf#page=1" 3]))
           [mkResponseDocument "Doc" "https://x/doc.pdf?v=2" 3;
            mkResponseDocument "Doc" "https://x/doc.pdf#page=1" 3]
           (mkResponseDocument "Doc" "https://x/doc.pdf?v=2" 3)
           3%N "iVBOR3" "iVBOR3" (setInput "q" initialHome)).
  - reflexivity.
  - reflexivity.
  - reflexivity.
  - left. reflexivity.
  - unfold pipelineSucceeds. repeat split; eauto.
Defined.

(** ** Interleaved calls *)

Lemma step_not_in_flight (h : Home) (ev : Event) (key : string) :
  startsKey key ev = false ->
  key ∉ loadingPreviews h -> key ∉ loadingPreviews (step h ev).
Proof.
  intros Hstart Hout.
  destruct (isPreviewStep ev) eqn:Hkind.
  - destruct ev as [s | | snapshot reply | snapshot doc
                   | doc [[small large]|e] | doc | doc | ];
      try discriminate Hkind.
    + cbn in Hstart. apply bool_decide_eq_false in Hstart.
      cbn. unfold markLoading.
      destruct (bool_decide (previewKey (url doc) (page doc)
                             ∈ loadingPreviews h)
                || truthy_opt (snapshot !! previewKey (url doc) (page doc)));
        [assumption|].
      rewrite elem_of_union, elem_of_singleton. intros [Heq | Hin]; auto.
    + cbn [step]. rewrite generatePreview_settle_success. cbn.
      rewrite elem_of_difference. tauto.
    + cbn [step]. rewrite generatePreview_settle_failure. cbn.
      rewrite elem_of_difference. tauto.
  - destruct (step_stores h ev Hkind) as (_ & _ & Hsame & _).
    now rewrite Hsame.
Qed.

(** X21. In any interleaving, once a call for a key has ended the key stays
    out of the in-flight set until another call for the same key starts:
    nothing else, neither the calls for other keys nor the handlers, marks
    it in flight. *)
Theorem settled_key_stays_cleared (doc : DocumentPreview)
  (rendered : Completion (Canvas * Canvas)) (h : Home) (evs : list Event) :
  forallb (fun ev => negb (startsKey (previewKey (url doc) (page doc)) ev))
    evs = true ->
  previewKey (url doc) (page doc)
  ∉ loadingPreviews (run (fst (generatePreview_settle doc rendered h)) evs).
Proof.
  intros Hnone.
  assert (Hcleared : previewKey (url doc) (page doc)
                     ∉ loadingPreviews
                         (fst (generatePreview_settle doc rendered h))).
  { destruct rendered as [[small large]|e];
      [rewrite generatePreview_settle_success
      | rewrite generatePreview_settle_failure];
      cbn; rewrite elem_of_difference, elem_of_singleton; tauto. }
  revert Hcleared Hnone.
  generalize (fst (generatePreview_settle doc rendered h)) as h'.
  induction evs as [|ev evs IH]; intros h' Hout Hnone; [assumption|].
  cbn [forallb] in Hnone. apply andb_true_iff in Hnone as [Hev Hnone].
  apply negb_true_iff in Hev.
  cbn [run fold_left]. fold (run (step h' ev) evs).
  apply IH; [|assumption]. now apply step_not_in_flight.
Qed.

Lemma settled_key_stays_cleared_witness :
  "a.pdf_1"
  ∉ loadingPreviews
      (run (fst (generatePreview_settle sampleDoc (Throw OtherValue)
                   (run initialHome
                      [PreviewStarted ∅ sampleDoc;
                       PreviewStarted ∅ sampleDoc])))
         [PreviewStarted ∅ citedTwice; SubmitSent]).
Proof.
  apply (settled_key_stays_cleared sampleDoc (Throw OtherValue)
           (run initialHome
              [PreviewStarted ∅ sampleDoc; PreviewStarted ∅ sampleDoc])
           [PreviewStarted ∅ citedTwice; SubmitSent]).
  vm_compute. reflexivity.
Defined.

(** ** The welcome screen *)

(** X22. The welcome screen is shown only as long as nothing has been
    submitted: a submission that is not blank replaces it by the message
    list at once, and once it is gone no run of the component brings it
    back. *)
Theorem welcome_never_returns (h : Home) (evs : list Event) :
  (all_white_space (input h) = false ->
   showsWelcome (step h SubmitSent) = false)
  /\ (showsWelcome h = false -> showsWelcome (run h evs) = false).
Proof.
  split.
  - intros Hinput. cbn [step]. rewrite handleSubmit_guard_open by assumption.
    unfold showsWelcome, handleSubmit_send. cbn.
    now destruct (messages h).
  - unfold showsWelcome. intros Hgone.
    assert (Hprefix : messages h `prefix_of` messages (run h evs)).
    { clear Hgone. revert h.
      induction evs as [|ev evs IH]; intros h; [reflexivity|].
      cbn [run fold_left]. fold (run (step h ev) evs).
      etransitivity; [|apply IH].
      destruct (step_messages h ev) as [-> | (m & -> & _)];
        [reflexivity | now apply prefix_app_r]. }
    destruct Hprefix as [more ->].
    now destruct (messages h).
Qed.
